(** * c3ss check-in bot: a shallow embedding of [index.js]

    The bot reads tokens and proxies from line-delimited text files, and
    for each token builds a retrying HTTP client, asks the service for the
    account status, performs the daily check-in when it is still due,
    verifies it, tallies the outcomes and schedules the next pass.

    The embedding follows [index.js] function by function.  Effects are
    modelled by a small monad: a computation reads the answers of the
    network from an oracle (one answer per request sent, with the time the
    request took),
    returns a value, throws, or terminates the process, and produces the
    list of the effects it performed, in order.  Calls to the logger are
    not part of the model; where computing a log message can throw (a
    property of an ill-shaped response), the throw is modelled.

    JavaScript numbers are modelled by [nat] (counts, indices) and [Z]
    (milliseconds, hours, status codes): the configuration values are
    taken to be integers in the range where double arithmetic is exact. *)

From Stdlib Require Import List ZArith NArith Bool Arith Lia Ascii String.
Import ListNotations.

Set Implicit Arguments.

(** ** JavaScript strings *)

Module JsString.

(** A string is its sequence of UTF-16 code units. *)
Definition char := N.
Definition jsstring := list char.

Definition LF : char := 10%N.
Definition HASH : char := 35%N.

(** [WhiteSpace] and [LineTerminator] of ECMAScript, what
    [String.prototype.trim] removes. *)
Definition isWhiteSpace (c : char) : bool :=
  existsb (N.eqb c)
    [9; 10; 11; 12; 13; 32; 160; 5760; 8232; 8233; 8239; 8287; 12288; 65279]%N
  || ((8192 <=? c) && (c <=? 8202))%N.

Fixpoint dropWhile (f : char -> bool) (s : jsstring) : jsstring :=
  match s with
  | [] => []
  | c :: s' => if f c then dropWhile f s' else s
  end.

Definition trimStart (s : jsstring) : jsstring := dropWhile isWhiteSpace s.
Definition trimEnd (s : jsstring) : jsstring := rev (dropWhile isWhiteSpace (rev s)).

(** [line.trim()] *)
Definition trim (s : jsstring) : jsstring := trimEnd (trimStart s).

(** [s.startsWith(prefix)] *)
Fixpoint startsWith (s prefix : jsstring) {struct prefix} : bool :=
  match prefix, s with
  | [], _ => true
  | _ :: _, [] => false
  | p :: prefix', c :: s' => N.eqb c p && startsWith s' prefix'
  end.

(** [s.split(sep)] for a separator of one code unit: the pieces between the
    occurrences of [sep]; the empty string gives one empty piece. *)
Fixpoint split (sep : char) (s : jsstring) : list jsstring :=
  match s with
  | [] => [[]]
  | c :: s' =>
      if N.eqb c sep then [] :: split sep s'
      else match split sep s' with
           | [] => [[c]]
           | piece :: pieces => (c :: piece) :: pieces
           end
  end.

(** [pieces.join(sep)], the inverse of [split]. *)
Fixpoint join (sep : char) (pieces : list jsstring) : jsstring :=
  match pieces with
  | [] => []
  | [piece] => piece
  | piece :: pieces' => piece ++ sep :: join sep pieces'
  end.

(** Truthiness of a string: the empty string is falsy. *)
Definition truthy (s : jsstring) : bool :=
  match s with [] => false | _ :: _ => true end.

(** A string literal of ASCII characters. *)
Fixpoint lit (s : string) : jsstring :=
  match s with
  | EmptyString => []
  | String a s' => N_of_ascii a :: lit s'
  end.

(** A string with no white space at either end. *)
Definition trimmed (s : jsstring) : Prop :=
  (forall c s', s = c :: s' -> isWhiteSpace c = false) /\
  (forall c s', s = s' ++ [c] -> isWhiteSpace c = false).

End JsString.

Import JsString.

(** ** Data of the bot *)

(** [config.json], the fields the code reads.  The logging fields
    ([logLevel], [logDirectory], [logRetention]) and the request headers
    play no part in the control flow. *)
Module requestConfig.
Record t := {
  baseUrl : jsstring;
  statusEndpoint : jsstring;
  checkinEndpoint : jsstring
}.
End requestConfig.

Module config.
Record t := {
  useProxy : bool;
  delayBetweenAccounts : Z;
  maxRetries : nat;
  retryDelay : Z;
  timeoutMs : Z;
  nextRunDelayHours : Z;
  requestConfig : requestConfig.t
}.
End config.

Inductive Method := GET | POST.

(** [response.data.data] of the status endpoint, as far as
    [checkAccountStatus] reads it: [account.account], [account.points] and
    [actsMap["Daily Check-in"].done]. *)
Record AccountInfo := {
  wallet : jsstring;
  points : Z;
  done : bool
}.

(** [response.data]: the [code] of the service and its [data]; [data] is
    [None] when it lacks a property that [checkAccountStatus] reads through,
    so that reading it throws a [TypeError]. *)
Record ResponseData := {
  code : Z;
  data : option AccountInfo
}.

(** The error of a rejected request: [error.code], the status of
    [error.response] when there is a response, and [error.message]. *)
Record AxiosError := {
  errorCode : option string;
  response : option Z;
  errorMessage : string
}.

(** What the network answers to one request sent on the wire: axios
    resolves with the response, or rejects with an error. *)
Inductive Outcome :=
| Resolved (d : ResponseData)
| Rejected (e : AxiosError).

Inductive Message :=
| Text (s : string)
| InvalidResponseCode (c : Z)      (* `Invalid response code: ${c}` *)
| EngineMessage.                   (* the text of a TypeError of the engine *)

Inductive Exn :=
| AxiosErr (e : AxiosError)
| Error (m : Message)              (* new Error(m) *)
| TypeError.

(** [error.message] *)
Definition message (e : Exn) : Message :=
  match e with
  | AxiosErr a => Text (errorMessage a)
  | Error m => m
  | TypeError => EngineMessage
  end.

(** The [proxy] argument of [processAccount]: a string of [proxies], [null],
    or [undefined], which an array gives outside its range. *)
Inductive ProxyArg :=
| Null
| Undefined
| Proxy (url : jsstring).

(** [proxies[i]] *)
Definition arrayGet (proxies : list jsstring) (i : nat) : ProxyArg :=
  match nth_error proxies i with
  | Some url => Proxy url
  | None => Undefined
  end.

(** The client of one account: the [token] header and the proxy agent. *)
Record AxiosInstance := {
  token : jsstring;
  httpsAgent : option jsstring
}.

(** The result of [checkAccountStatus]. *)
Record Status := {
  isCheckedIn : bool;
  accountInfo : AccountInfo
}.

(** The object [processAccount] returns: [{ success, alreadyCheckedIn }] or
    [{ success, error }]; a property that is absent is [None]. *)
Record AccountResult := {
  success : bool;
  alreadyCheckedIn : option bool;
  error : option Message
}.

(** The tally of [processAllAccounts]. *)
Module results.
Record t := {
  total : nat;
  successful : nat;
  failed : nat;
  alreadyCheckedIn : nat
}.
End results.

(** A file of the working directory. *)
Inductive File :=
| Missing
| Unreadable (m : string)            (* readFile rejects with message m *)
| Contents (data : jsstring).

(** ** Effects *)

(** What a run of the program does that the outside can see. *)
Inductive Event :=
| Client (token : jsstring) (agent : option jsstring)
    (* createAxiosInstance returns a client *)
| Call (m : Method) (url : jsstring)
    (* axios.get(url) or axios.post(url, {}) is called *)
| Send (token : jsstring) (agent : option jsstring) (m : Method) (url : jsstring)
    (* the client built with this token and this agent hands one request to
       axios; how axios writes the token header on the wire is not part of
       the model *)
| RetryDelay (retryCount : nat) (ms : Z)
    (* axios-retry waits ms before it sends the request again *)
| Sleep (ms : Z)
    (* await new Promise(resolve => setTimeout(resolve, ms)) *)
| Header
    (* displayHeader() *)
| Schedule (ms : Z)
    (* setTimeout(() => main(), ms) *)
| ProcessExit (c : Z).
    (* process.exit(c) *)

(** How a computation ends: with a value, with an exception, or with the end
    of the process. *)
Inductive Res (A : Type) :=
| Ret (a : A)
| Throw (e : Exn)
| Exit (c : Z).

Arguments Throw {A} e.
Arguments Exit {A} c.

(** A run: how it ended, how many answers of the network it has consumed,
    and its events in order. *)
Record Run (A : Type) := {
  outcome : Res A;
  pos : nat;
  events : list Event
}.

(** A computation starts at a position of the network oracle. *)
Definition M (A : Type) := nat -> Run A.

Definition ret {A} (a : A) : M A :=
  fun p => {| outcome := Ret a; pos := p; events := [] |}.

Definition throw {A} (e : Exn) : M A :=
  fun p => {| outcome := Throw e; pos := p; events := [] |}.

Definition emit (ev : Event) : M unit :=
  fun p => {| outcome := Ret tt; pos := p; events := [ev] |}.

(** [process.exit(c)] *)
Definition exit {A} (c : Z) : M A :=
  fun p => {| outcome := Exit c; pos := p; events := [ProcessExit c] |}.

Definition bind {A B} (m : M A) (k : A -> M B) : M B :=
  fun p =>
    let r := m p in
    match outcome r with
    | Ret a =>
        let r' := k a (pos r) in
        {| outcome := outcome r'; pos := pos r'; events := events r ++ events r' |}
    | Throw e => {| outcome := Throw e; pos := pos r; events := events r |}
    | Exit c => {| outcome := Exit c; pos := pos r; events := events r |}
    end.

(** [try { m } catch (error) { handler }]: the end of the process is not an
    exception. *)
Definition tryCatch {A} (m : M A) (handler : Exn -> M A) : M A :=
  fun p =>
    let r := m p in
    match outcome r with
    | Throw e =>
        let r' := handler e (pos r) in
        {| outcome := outcome r'; pos := pos r'; events := events r ++ events r' |}
    | _ => r
    end.

Declare Scope js_scope.
Delimit Scope js_scope with js.
Notation "x <- m ;; k" := (bind m (fun x => k))
  (at level 100, m at next level, right associativity) : js_scope.
Notation "m ;; k" := (bind m (fun _ => k))
  (at level 100, right associativity) : js_scope.
Local Open Scope js_scope.

(** ** The libraries the bot calls *)

(** axios-retry and https-proxy-agent are dependencies, not code of the bot:
    the predicates the retry condition calls, and whether
    [new HttpsProxyAgent(proxy)] constructs an agent or throws, are
    parameters of the embedding. *)
Record Libraries := {
  isNetworkError : AxiosError -> bool;
  isRetryableError : AxiosError -> bool;
  agentConstructs : jsstring -> bool
}.

(** The two predicates as axios-retry defines them.  [isNetworkError]
    accepts an error that has no response and has a code, other than
    ERR_CANCELED (a cancelled request) and ECONNABORTED (a timeout), that
    the package is-retry-allowed does not refuse; [isRetryableError]
    accepts an error whose code is not ECONNABORTED and that has no
    response or a response with a status from 500 to 599. *)
Definition hasCode (c : string) (e : AxiosError) : bool :=
  match errorCode e with
  | Some c' => String.eqb c' c
  | None => false
  end.

(** The codes that is-retry-allowed refuses. *)
Definition denyList : list string :=
  ["ENOTFOUND"; "ENETUNREACH";
   "UNABLE_TO_GET_ISSUER_CERT"; "UNABLE_TO_GET_CRL";
   "UNABLE_TO_DECRYPT_CERT_SIGNATURE"; "UNABLE_TO_DECRYPT_CRL_SIGNATURE";
   "UNABLE_TO_DECODE_ISSUER_PUBLIC_KEY"; "CERT_SIGNATURE_FAILURE";
   "CRL_SIGNATURE_FAILURE"; "CERT_NOT_YET_VALID"; "CERT_HAS_EXPIRED";
   "CRL_NOT_YET_VALID"; "CRL_HAS_EXPIRED"; "ERROR_IN_CERT_NOT_BEFORE_FIELD";
   "ERROR_IN_CERT_NOT_AFTER_FIELD"; "ERROR_IN_CRL_LAST_UPDATE_FIELD";
   "ERROR_IN_CRL_NEXT_UPDATE_FIELD"; "OUT_OF_MEM";
   "DEPTH_ZERO_SELF_SIGNED_CERT"; "SELF_SIGNED_CERT_IN_CHAIN";
   "UNABLE_TO_GET_ISSUER_CERT_LOCALLY"; "UNABLE_TO_VERIFY_LEAF_SIGNATURE";
   "CERT_CHAIN_TOO_LONG"; "CERT_REVOKED"; "INVALID_CA";
   "PATH_LENGTH_EXCEEDED"; "INVALID_PURPOSE"; "CERT_UNTRUSTED";
   "CERT_REJECTED"; "HOSTNAME_MISMATCH"]%string.

Definition isRetryAllowed (e : AxiosError) : bool :=
  negb (existsb (fun c => hasCode c e) denyList).

Definition axiosRetry_isNetworkError (isRetryAllowed : AxiosError -> bool)
  (e : AxiosError) : bool :=
  match response e with None => true | Some _ => false end
  && match errorCode e with Some _ => true | None => false end
  && negb (hasCode "ERR_CANCELED" e || hasCode "ECONNABORTED" e)
  && isRetryAllowed e.

Definition axiosRetry_isRetryableError (e : AxiosError) : bool :=
  negb (hasCode "ECONNABORTED" e)
  && match response e with
     | None => true
     | Some status => (500 <=? status)%Z && (status <=? 599)%Z
     end.

Definition axiosRetry (isRetryAllowed : AxiosError -> bool)
  (constructs : jsstring -> bool) : Libraries :=
  {| isNetworkError := axiosRetry_isNetworkError isRetryAllowed;
     isRetryableError := axiosRetry_isRetryableError;
     agentConstructs := constructs |}.

(** ** Concrete runs *)

(** A configuration, two files and some behaviours of the service, for the
    examples at the end. *)
Module Example.

Definition lib : Libraries := axiosRetry isRetryAllowed (fun _ => true).

Definition cfg : config.t :=
  {| config.useProxy := true;
     config.delayBetweenAccounts := 5000;
     config.maxRetries := 3;
     config.retryDelay := 1000;
     config.timeoutMs := 30000;
     config.nextRunDelayHours := 25;
     config.requestConfig :=
       {| requestConfig.baseUrl := lit "https://service.example";
          requestConfig.statusEndpoint := lit "/status";
          requestConfig.checkinEndpoint := lit "/checkin" |} |}.


Definition tokenA : jsstring := lit "tokenA".
Definition tokenB : jsstring := lit "tokenB".

(** [data.txt]: a padded token, a comment, a blank line, a token. *)
Definition dataTxt : jsstring :=
  join LF [lit "  tokenA "; lit "# second account"; lit ""; lit "tokenB"; lit ""].

(** [proxy.txt]: one proxy for two tokens. *)
Definition proxyTxt : jsstring := join LF [lit "http://10.0.0.1:8080"; lit ""].

Definition info (checkedIn : bool) : AccountInfo :=
  {| wallet := lit "cXabcdef0123456789"; points := 120%Z; done := checkedIn |}.

Definition answer (checkedIn : bool) : Outcome :=
  Resolved {| code := 200%Z; data := Some (info checkedIn) |}.

(** A response with status 501. *)
Definition error501 : AxiosError :=
  {| errorCode := Some "ERR_BAD_RESPONSE"%string;
     response := Some 501%Z;
     errorMessage := "Request failed with status code 501" |}.

(** Every account is already checked in. *)
Definition allCheckedIn : nat -> Outcome := fun _ => answer true.

(** The first account is checked in by the bot: not done, the POST, done. *)
Definition checkInWorks (p : nat) : Outcome :=
  match p with
  | 0 => answer false
  | _ => answer true
  end.

(** The service accepts the POST and still reports the check-in as not
    done. *)
Definition neverDone : nat -> Outcome := fun _ => answer false.

(** The first request is answered with status 501, the next ones are not. *)
Definition oneError501 (p : nat) : Outcome :=
  match p with
  | 0 => Rejected error501
  | _ => answer true
  end.

Definition clientA : AxiosInstance := {| token := tokenA; httpsAgent := None |}.

Definition status (checkedIn : bool) : Status :=
  {| isCheckedIn := checkedIn; accountInfo := info checkedIn |}.

(** The tally of the batch over the two tokens when the service behaves as
    [checkInWorks]: the bot checks the first account in, the second is
    already checked in. *)
Definition tally : results.t :=
  {| results.total := 2; results.successful := 2;
     results.failed := 0; results.alreadyCheckedIn := 1 |}.

(** The libraries with a constructor of the proxy agent that throws. *)
Definition libNoAgent : Libraries := axiosRetry isRetryAllowed (fun _ => false).

(** A [data.txt] without a token: a comment, a line of spaces, an empty
    line. *)
Definition commentsOnly : jsstring :=
  join LF [lit "# no account yet"; lit "   "; lit ""].

(** The service answers every request with a response of code 500 in its
    body. *)
Definition code500 : ResponseData := {| code := 500%Z; data := None |}.
Definition alwaysCode500 : nat -> Outcome := fun _ => Resolved code500.

(** Every request takes 100 ms; every request takes 30 s, the whole
    [timeoutMs] of the example. *)
Definition quick : nat -> Z := fun _ => 100%Z.
Definition slow : nat -> Z := fun _ => 30000%Z.

(** A response with status 503. *)
Definition error503 : AxiosError :=
  {| errorCode := Some "ERR_BAD_RESPONSE"%string;
     response := Some 503%Z;
     errorMessage := "Request failed with status code 503" |}.

(** The service answers with status 503, always, or twice and then not. *)
Definition alwaysError503 : nat -> Outcome := fun _ => Rejected error503.
Definition twoErrors503 (p : nat) : Outcome :=
  match p with
  | 0 | 1 => Rejected error503
  | _ => answer true
  end.

(** A [proxy.txt] whose line has no scheme, and libraries whose constructor
    of the proxy agent throws on such a line, as [new URL] does. *)
Definition proxyNoScheme : jsstring := join LF [lit "10.0.0.1:8080"; lit ""].
Definition libStrict : Libraries :=
  axiosRetry isRetryAllowed
    (fun url => startsWith url (lit "http://") || startsWith url (lit "https://")).

End Example.

(** ** The bot *)

Section Bot.

Variable lib : Libraries.
Variable cfg : config.t.

(** [data.txt], [proxy.txt], and the answers of the network, one for each
    request sent, in the order of sending. *)
Variable data_txt proxy_txt : File.
Variable net : nat -> Outcome.

(** The time each request took, in milliseconds, as axios-retry measures
    it when the request fails: [Date.now() - lastRequestTime]. *)
Variable elapsed : nat -> Z.

(** [await fs.pathExists(file)] *)
Definition pathExists (f : File) : M bool :=
  ret (match f with Missing => false | _ => true end).

(** [await fs.readFile(file, 'utf8')] *)
Definition readFile (f : File) : M jsstring :=
  match f with
  | Contents d => ret d
  | Unreadable m => throw (Error (Text m))
  | Missing => throw (Error (Text "ENOENT"))
  end.

(** [line => line && !line.startsWith('#')] *)
Definition keepLine (line : jsstring) : bool :=
  truthy line && negb (startsWith line [HASH]).

(** index.js, lines 74-89 *)
Definition loadTokens : M (list jsstring) :=
  tryCatch
    (found <- pathExists data_txt ;;
     (if negb found then exit 1%Z else ret tt) ;;
     data <- readFile data_txt ;;
     ret (filter keepLine (map trim (split LF data))))
    (fun _ => exit 1%Z).

(** index.js, lines 92-109 *)
Definition loadProxies : M (list jsstring) :=
  if negb (config.useProxy cfg) then ret []
  else
    tryCatch
      (found <- pathExists proxy_txt ;;
       if negb found then ret []
       else
         data <- readFile proxy_txt ;;
         ret (filter keepLine (map trim (split LF data))))
      (fun _ => ret []).

(** [if (proxy)] *)
Definition proxyTruthy (proxy : ProxyArg) : option jsstring :=
  match proxy with
  | Proxy url => if truthy url then Some url else None
  | _ => None
  end.

(** [new HttpsProxyAgent(proxy)] *)
Definition newHttpsProxyAgent (url : jsstring) : M jsstring :=
  if agentConstructs lib url then ret url else throw TypeError.

(** The [retryDelay] option, lines 130-134. *)
Definition retryDelay (retryCount : nat) : Z :=
  (2 ^ Z.of_nat retryCount * config.retryDelay cfg)%Z.

Definition retryStatuses : list Z := [429; 500; 502; 503; 504]%Z.

(** The [retryCondition] option, lines 135-140. *)
Definition retryCondition (error : AxiosError) : bool :=
  isNetworkError lib error
  || isRetryableError lib error
  || match response error with
     | Some status => existsb (Z.eqb status) retryStatuses
     | None => false
     end.

(** index.js, lines 112-148 *)
Definition createAxiosInstance (token : jsstring) (proxy : ProxyArg)
  : M AxiosInstance :=
  agent <- match proxyTruthy proxy with
           | Some url => a <- newHttpsProxyAgent url ;; ret (Some a)
           | None => ret None
           end ;;
  emit (Client token agent) ;;
  ret {| token := token; httpsAgent := agent |}.

(** One request handed to axios by the client [axios]: the answer of the
    network and the time the request took.  The event names the client by
    the token and the agent it was built with. *)
Definition send (axios : AxiosInstance) (m : Method) (url : jsstring)
  : M (Outcome * Z) :=
  fun p => {| outcome := Ret (net p, elapsed p);
              pos := S p;
              events := [Send (token axios) (httpsAgent axios) m url] |}.

(** The response interceptor that [axiosRetry(instance, options)] installs,
    with the options of lines 128-145 and the [timeout] of line 115.  A
    rejected request is sent again after [retryDelay(retryCount)] while
    [retryCount < retries] and [retryCondition(error)] hold; [retryCount]
    counts from 1.  As [shouldResetTimeout] is not set, a [timeout] that is
    not 0 is a budget for the request with its retries: before a retry the
    interceptor takes the time of the last request and the coming delay
    off [config.timeout], and rejects with the error, without a retry,
    when nothing is left.  [budget] is [retries - retryCount], so that
    [retryCount < retries] reads [budget = S _]. *)
Fixpoint sendWithRetry (axios : AxiosInstance) (m : Method) (url : jsstring)
  (budget retryCount : nat) (timeout : Z) : M ResponseData :=
  sent <- send axios m url ;;
  match fst sent with
  | Resolved d => ret d
  | Rejected error =>
      match budget with
      | S budget' =>
          if retryCondition error then
            let delay := retryDelay (S retryCount) in
            if (timeout =? 0)%Z then
              emit (RetryDelay (S retryCount) delay) ;;
              sendWithRetry axios m url budget' (S retryCount) timeout
            else
              let left := (timeout - snd sent - delay)%Z in
              if (left <=? 0)%Z then throw (AxiosErr error)
              else
                emit (RetryDelay (S retryCount) delay) ;;
                sendWithRetry axios m url budget' (S retryCount) left
          else throw (AxiosErr error)
      | O => throw (AxiosErr error)
      end
  end.

(** [axios.get(url)] and [axios.post(url, {})] on a client of the bot: the
    request starts with the [timeout] of the client, [config.timeoutMs]. *)
Definition request (axios : AxiosInstance) (m : Method) (url : jsstring)
  : M ResponseData :=
  emit (Call m url) ;;
  sendWithRetry axios m url (config.maxRetries cfg) 0 (config.timeoutMs cfg).

Definition statusUrl : jsstring :=
  requestConfig.statusEndpoint (config.requestConfig cfg).
Definition checkinUrl : jsstring :=
  requestConfig.checkinEndpoint (config.requestConfig cfg).

(** index.js, lines 151-177 *)
Definition checkAccountStatus (axios : AxiosInstance) (accountIndex : nat)
  : M Status :=
  tryCatch
    (response <- request axios GET statusUrl ;;
     (if negb (code response =? 200)%Z
      then throw (Error (InvalidResponseCode (code response)))
      else ret tt) ;;
     match data response with
     | None => throw TypeError
     | Some info => ret {| isCheckedIn := done info; accountInfo := info |}
     end)
    (fun error => throw error).

(** index.js, lines 180-199 *)
Definition performDailyCheckin (axios : AxiosInstance) (accountIndex : nat)
  : M bool :=
  tryCatch
    (response <- request axios POST checkinUrl ;;
     (if negb (code response =? 200)%Z
      then throw (Error (InvalidResponseCode (code response)))
      else ret tt) ;;
     ret true)
    (fun error => throw error).

Definition succeeded (already : bool) : AccountResult :=
  {| success := true; alreadyCheckedIn := Some already; error := None |}.
Definition failedWith (m : Message) : AccountResult :=
  {| success := false; alreadyCheckedIn := None; error := Some m |}.

(** index.js, lines 202-234 *)
Definition processAccount (token : jsstring) (proxy : ProxyArg)
  (accountIndex : nat) : M AccountResult :=
  axiosInstance <- createAxiosInstance token proxy ;;
  tryCatch
    (st <- checkAccountStatus axiosInstance accountIndex ;;
     if isCheckedIn st then ret (succeeded true)
     else
       performDailyCheckin axiosInstance accountIndex ;;
       verify <- checkAccountStatus axiosInstance accountIndex ;;
       if negb (isCheckedIn verify)
       then ret (failedWith (Text "Verification failed"))
       else ret (succeeded false))
    (fun error => ret (failedWith (message error))).

(** [config.useProxy && i < proxies.length ? proxies[i] : null], line 254 *)
Definition proxyFor (proxies : list jsstring) (i : nat) : ProxyArg :=
  if config.useProxy cfg && (i <? List.length proxies)
  then arrayGet proxies i
  else Null.

(** The tally after one account, lines 259-266. *)
Definition count (r : results.t) (result : AccountResult) : results.t :=
  if success result then
    {| results.total := results.total r;
       results.successful := S (results.successful r);
       results.failed := results.failed r;
       results.alreadyCheckedIn :=
         match alreadyCheckedIn result with
         | Some true => S (results.alreadyCheckedIn r)
         | _ => results.alreadyCheckedIn r
         end |}
  else
    {| results.total := results.total r;
       results.successful := results.successful r;
       results.failed := S (results.failed r);
       results.alreadyCheckedIn := results.alreadyCheckedIn r |}.

(** The loop of lines 251-273 from index [i] on: [rest] is
    [tokens.slice(i)] and [n] is [tokens.length]. *)
Fixpoint accountsLoop (n : nat) (proxies : list jsstring) (i : nat)
  (rest : list jsstring) (r : results.t) : M results.t :=
  match rest with
  | [] => ret r
  | tok :: rest' =>
      let proxy := proxyFor proxies i in
      result <- processAccount tok proxy (i + 1) ;;
      let r' := count r result in
      (if i <? n - 1
       then emit (Sleep (config.delayBetweenAccounts cfg))
       else ret tt) ;;
      accountsLoop n proxies (S i) rest' r'
  end.

(** index.js, lines 237-276 *)
Definition processAllAccounts : M results.t :=
  tokens <- loadTokens ;;
  proxies <- loadProxies ;;
  let r := {| results.total := List.length tokens;
              results.successful := 0;
              results.failed := 0;
              results.alreadyCheckedIn := 0 |} in
  accountsLoop (List.length tokens) proxies 0 tokens r.

(** [config.nextRunDelayHours * 60 * 60 * 1000], line 291 *)
Definition nextRunDelay : Z :=
  (config.nextRunDelayHours cfg * 60 * 60 * 1000)%Z.

(** One call of [main], lines 279-307, up to the point where it has armed
    the timer of the next call or left the process. *)
Definition mainOnce : M unit :=
  emit Header ;;
  tryCatch
    (processAllAccounts ;;
     emit (Schedule nextRunDelay))
    (fun _ => exit 1%Z).

(** [main] and the calls of [main] that its timers make, [rounds] of them:
    the callback of [setTimeout] calls [main] again when the delay is over. *)
Fixpoint main (rounds : nat) : M unit :=
  match rounds with
  | O => ret tt
  | S rounds' => mainOnce ;; main rounds'
  end.

(** ** Observations on a run *)

(** The calls of [axios.get] and [axios.post], in order. *)
Definition calls (evs : list Event) : list (Method * jsstring) :=
  flat_map (fun ev => match ev with Call m url => [(m, url)] | _ => [] end) evs.

(** The waits of axios-retry: the retry count and the delay of each. *)
Definition retryDelays (evs : list Event) : list (nat * Z) :=
  flat_map (fun ev => match ev with RetryDelay n ms => [(n, ms)] | _ => [] end) evs.

(** The requests sent on the wire. *)
Definition sends (evs : list Event) : nat :=
  List.length (filter (fun ev => match ev with Send _ _ _ _ => true | _ => false end) evs).

(** The waits between accounts. *)
Definition sleeps (evs : list Event) : list Z :=
  flat_map (fun ev => match ev with Sleep ms => [ms] | _ => [] end) evs.

(** The proxy agent of every client built and of every request sent. *)
Definition agents (evs : list Event) : list (option jsstring) :=
  flat_map (fun ev => match ev with
                      | Client _ a => [a]
                      | Send _ a _ _ => [a]
                      | _ => []
                      end) evs.

(** An event of one request: a sending by the client [axios], or a wait of
    axios-retry. *)
Definition wireEvent (axios : AxiosInstance) (ev : Event) : Prop :=
  match ev with
  | Send t a _ _ => t = token axios /\ a = httpsAgent axios
  | RetryDelay _ _ => True
  | _ => False
  end.

(** Blocks of events with [sep] between every two of them. *)
Fixpoint separated (sep : Event) (blocks : list (list Event)) : list Event :=
  match blocks with
  | [] => []
  | [b] => b
  | b :: rest => b ++ sep :: separated sep rest
  end.

(** The three calls of an account that is checked in by the bot. *)
Definition threeCalls : list (Method * jsstring) :=
  [(GET, statusUrl); (POST, checkinUrl); (GET, statusUrl)].

(** Where the call of [main] number [k] starts reading the network, when
    the calls before it have completed their batch. *)
Fixpoint roundStart (k p : nat) : nat :=
  match k with
  | O => p
  | S k' => pos (processAllAccounts (roundStart k' p))
  end.

(** The tokens with their indices from [i] on. *)
Definition indexedFrom (i : nat) (tokens : list jsstring) : list (nat * jsstring) :=
  combine (seq i (List.length tokens)) tokens.

(** The run of [processAccount] once its client is built, case by case of
    what the three steps return. *)
Definition accountRun (axios : AxiosInstance) (i p : nat) : Run AccountResult :=
  let built := Client (token axios) (httpsAgent axios) in
  let s1 := checkAccountStatus axios i p in
  match outcome s1 with
  | Ret st =>
      if isCheckedIn st then
        {| outcome := Ret (succeeded true); pos := pos s1;
           events := built :: events s1 |}
      else
        let s2 := performDailyCheckin axios i (pos s1) in
        match outcome s2 with
        | Ret _ =>
            let s3 := checkAccountStatus axios i (pos s2) in
            {| outcome :=
                 match outcome s3 with
                 | Ret verify =>
                     Ret (if isCheckedIn verify then succeeded false
                          else failedWith (Text "Verification failed"))
                 | Throw e => Ret (failedWith (message e))
                 | Exit c => Exit c
                 end;
               pos := pos s3;
               events := built :: events s1 ++ events s2 ++ events s3 |}
        | Throw e =>
            {| outcome := Ret (failedWith (message e)); pos := pos s2;
               events := built :: events s1 ++ events s2 |}
        | Exit c =>
            {| outcome := Exit c; pos := pos s2;
               events := built :: events s1 ++ events s2 |}
        end
  | Throw e =>
      {| outcome := Ret (failedWith (message e)); pos := pos s1;
         events := built :: events s1 |}
  | Exit c =>
      {| outcome := Exit c; pos := pos s1; events := built :: events s1 |}
  end.

(** The lines a loader keeps, in the words of the specification: each
    line trimmed, in file order, without the lines that are empty after
    trimming and without those whose trimmed form starts with '#'. *)
Fixpoint spec_cleanLines (lines : list jsstring) : list jsstring :=
  match lines with
  | [] => []
  | line :: rest =>
      match trim line with
      | [] => spec_cleanLines rest
      | c :: s =>
          if N.eqb c HASH then spec_cleanLines rest
          else (c :: s) :: spec_cleanLines rest
      end
  end.

(** An entry that a loader may return. *)
Definition cleanEntry (entry : jsstring) : Prop :=
  entry <> [] /\ startsWith entry [HASH] = false /\ trimmed entry.

(** A failure that the retry condition of the client accepts: a network
    error for axios-retry, a retryable error for axios-retry, or a
    response with one of the five statuses. *)
Definition retriable (e : AxiosError) : Prop :=
  isNetworkError lib e = true
  \/ isRetryableError lib e = true
  \/ exists status,
       response e = Some status /\ In status [429; 500; 502; 503; 504]%Z.

(** The time that [j] requests in a row took with the wait that follows
    each of them, the requests being those from position [p] on and the
    first wait that of retry [retryCount + 1]: what axios-retry has taken
    off the timeout of a request when it decides on one more retry. *)
Definition timeSpent (retryCount p j : nat) : Z :=
  fold_right Z.add 0%Z
    (map (fun i => (elapsed (p + i) + retryDelay (S (retryCount + i)))%Z) (seq 0 j)).

(** The events of a request that is retried [n] times: the first sending,
    and for each retry its wait and its sending. *)
Definition retriedEvents (axios : AxiosInstance) (m : Method) (url : jsstring)
  (retryCount n : nat) : list Event :=
  Send (token axios) (httpsAgent axios) m url
  :: flat_map (fun j => [RetryDelay j (retryDelay j);
                         Send (token axios) (httpsAgent axios) m url])
              (seq (S retryCount) n).

(** ** The claims as the specification words them, where the code differs *)

(** A failed request is retried exactly on a network error or on one of the
    five statuses. *)
Definition retriedExactlyOnListed : Prop :=
  forall e : AxiosError,
    retryCondition e = true <->
    (isNetworkError lib e = true
     \/ exists status,
          response e = Some status /\ In status [429; 500; 502; 503; 504]%Z).

(** A failure with one of the five statuses is sent again while retries
    are left. *)
Definition listedStatusIsRetried : Prop :=
  forall axios m url p e status,
    net p = Rejected e ->
    response e = Some status ->
    In status [429; 500; 502; 503; 504]%Z ->
    0 < config.maxRetries cfg ->
    1 < sends (events (request axios m url p)).

(** Every account makes the three calls. *)
Definition alwaysThreeCalls : Prop :=
  forall tok proxy i p,
    calls (events (processAccount tok proxy i p)) = threeCalls.

(** The process ends only when a batch throws. *)
Definition exitsOnlyOnThrow : Prop :=
  forall n p c,
    outcome (main n p) = Exit c ->
    exists k e, k < n /\ outcome (processAllAccounts (roundStart k p)) = Throw e.

(** ** More observations on a run *)

(** The calls of [process.exit]. *)
Definition exits (evs : list Event) : list Z :=
  flat_map (fun ev => match ev with ProcessExit c => [c] | _ => [] end) evs.

(** The time a run spends in the waits of axios-retry, in milliseconds. *)
Definition waited (evs : list Event) : Z :=
  fold_right Z.add 0%Z (map snd (retryDelays evs)).

(** The tally of a list of results, counted from nothing. *)
Definition tallyOf (total : nat) (rs : list AccountResult) : results.t :=
  fold_left count rs
    {| results.total := total; results.successful := 0;
       results.failed := 0; results.alreadyCheckedIn := 0 |}.

(** [s.slice(start, end)] of a string, with [end] absent when it is [None]:
    a negative index counts from the end, and both are clamped to the
    string. *)
Definition sliceIndex (len : nat) (i : Z) : nat :=
  if (i <? 0)%Z then Z.to_nat (Z.max (Z.of_nat len + i) 0)
  else Nat.min (Z.to_nat i) len.

Definition slice (s : jsstring) (start : Z) (stop : option Z) : jsstring :=
  let len := List.length s in
  let from := sliceIndex len start in
  let to := match stop with Some e => sliceIndex len e | None => len end in
  firstn (to - from) (skipn from s).

(** The wallet as [checkAccountStatus] writes it to the log, line 162:
    [`${w.slice(0, 6)}...${w.slice(-6)}`]. *)
Definition walletShown (w : jsstring) : jsstring :=
  slice w 0 (Some 6%Z) ++ lit "..." ++ slice w (-6) None.

(** An event of a step of one account: a call, a sending by the client
    [axios], or a wait of axios-retry. *)
Definition stepEvent (axios : AxiosInstance) (ev : Event) : Prop :=
  match ev with
  | Call _ _ => True
  | Send t a _ _ => t = token axios /\ a = httpsAgent axios
  | RetryDelay _ _ => True
  | _ => False
  end.

Unset Implicit Arguments.

(** ** Facts about strings *)

Lemma split_nonempty sep s : split sep s <> [].
Proof.
  destruct s as [|c s]; simpl; [discriminate|].
  destruct (N.eqb c sep); [discriminate|].
  destruct (split sep s); discriminate.
Qed.

Lemma join_split sep s : join sep (split sep s) = s.
Proof.
  induction s as [|c s IH]; simpl; [reflexivity|].
  destruct (N.eqb_spec c sep) as [->|Hne].
  - pose proof (split_nonempty sep s) as Hs.
    simpl. destruct (split sep s) as [|p ps]; [contradiction|].
    simpl. now rewrite <- IH.
  - destruct (split sep s) as [|p ps] eqn:E.
    + now destruct (split_nonempty sep s).
    + simpl in *. destruct ps; simpl; now rewrite <- IH.
Qed.

Lemma split_no_sep sep s : Forall (fun piece => ~ In sep piece) (split sep s).
Proof.
  induction s as [|c s IH]; simpl.
  - constructor; [intros []|constructor].
  - destruct (N.eqb_spec c sep) as [->|Hne].
    + constructor; [intros []|exact IH].
    + destruct (split sep s) as [|p ps].
      * constructor; [|constructor]. intros [H|[]]. congruence.
      * inversion IH; subst. constructor; [|assumption].
        intros [H|H]; [congruence|contradiction].
Qed.

Lemma dropWhile_suffix f s : exists pre, s = pre ++ dropWhile f s /\ forallb f pre = true.
Proof.
  induction s as [|c s [pre [IH1 IH2]]]; simpl.
  - now exists [].
  - destruct (f c) eqn:E.
    + exists (c :: pre). simpl. rewrite E, IH2. split; [now f_equal|reflexivity].
    + now exists [].
Qed.

Lemma dropWhile_head f s c s' : dropWhile f s = c :: s' -> f c = false.
Proof.
  induction s as [|d s IH]; simpl; [discriminate|].
  destruct (f d) eqn:E; [exact IH|]. intros H. now inversion H; subst.
Qed.

(** [trim] removes white space only: the string is its trimmed form between
    two runs of white space. *)
Lemma trim_segment s :
  exists l r, s = l ++ trim s ++ r
              /\ forallb isWhiteSpace l = true /\ forallb isWhiteSpace r = true.
Proof.
  unfold trim, trimEnd, trimStart.
  destruct (dropWhile_suffix isWhiteSpace s) as [l [Hl Wl]].
  destruct (dropWhile_suffix isWhiteSpace (rev (dropWhile isWhiteSpace s))) as [r [Hr Wr]].
  exists l, (rev r). repeat split; [|assumption|].
  - rewrite Hl at 1. f_equal.
    rewrite <- rev_app_distr, <- Hr. now rewrite rev_involutive.
  - rewrite forallb_forall in *. intros x Hx. apply Wr. now apply in_rev.
Qed.

Lemma trim_trimmed s : trimmed (trim s).
Proof.
  unfold trim, trimEnd, trimStart. split; intros c s' E.
  - (* first character: it is the first one left by the front trim *)
    set (t := dropWhile isWhiteSpace s) in *.
    destruct (dropWhile_suffix isWhiteSpace (rev t)) as [pre [Hp _]].
    assert (Ht : t = rev (dropWhile isWhiteSpace (rev t)) ++ rev pre).
    { rewrite <- rev_app_distr, <- Hp. now rewrite rev_involutive. }
    rewrite E in Ht. simpl in Ht.
    apply (@dropWhile_head isWhiteSpace s c (s' ++ rev pre)). exact Ht.
  - (* last character: the head of the reversed string after the drop *)
    apply (f_equal (@rev _)) in E. rewrite rev_involutive, rev_app_distr in E.
    simpl in E. now apply dropWhile_head in E.
Qed.

(** ** Facts about the requests *)

Lemma calls_app a b : calls (a ++ b) = calls a ++ calls b.
Proof. apply flat_map_app. Qed.

Lemma retryDelays_app a b : retryDelays (a ++ b) = retryDelays a ++ retryDelays b.
Proof. apply flat_map_app. Qed.

Lemma sleeps_app a b : sleeps (a ++ b) = sleeps a ++ sleeps b.
Proof. apply flat_map_app. Qed.

Lemma agents_app a b : agents (a ++ b) = agents a ++ agents b.
Proof. apply flat_map_app. Qed.

Lemma sends_app a b : sends (a ++ b) = sends a + sends b.
Proof. unfold sends. now rewrite filter_app, length_app. Qed.

(** The events of one request hold no call, no wait between accounts, and
    no agent but the client's. *)
Lemma wire_calls axios evs : Forall (wireEvent axios) evs -> calls evs = [].
Proof.
  induction 1 as [|ev evs H _ IH]; [reflexivity|].
  destruct ev; simpl in *; try contradiction; exact IH.
Qed.

Lemma wire_sleeps axios evs : Forall (wireEvent axios) evs -> sleeps evs = [].
Proof.
  induction 1 as [|ev evs H _ IH]; [reflexivity|].
  destruct ev; simpl in *; try contradiction; exact IH.
Qed.

Lemma wire_agents axios evs :
  Forall (wireEvent axios) evs ->
  Forall (fun a => a = httpsAgent axios) (agents evs).
Proof.
  induction 1 as [|ev evs H _ IH]; [constructor|].
  destruct ev; simpl in *; try contradiction; try exact IH.
  constructor; [apply H|exact IH].
Qed.

(** The retry condition, disjunct by disjunct. *)
Lemma retryCondition_iff e :
  retryCondition e = true <-> retriable e.
Proof.
  unfold retryCondition, retriable, retryStatuses. rewrite !orb_true_iff. split.
  - intros [[H|H]|H]; [now left|now right; left|right; right].
    destruct (response e) as [status|]; [|discriminate].
    exists status. split; [reflexivity|].
    apply existsb_exists in H. destruct H as [x [Hin Hx]].
    apply Z.eqb_eq in Hx. now subst.
  - intros [H|[H|[status [E Hin]]]]; [now left; left|now left; right|right].
    rewrite E. apply existsb_exists. exists status. split; [assumption|apply Z.eqb_refl].
Qed.

(** One step of the interceptor. *)
Lemma sendWithRetry_eq axios m url budget retryCount timeout p :
  sendWithRetry axios m url budget retryCount timeout p =
  let sent := Send (token axios) (httpsAgent axios) m url in
  let failed e := {| outcome := Throw (AxiosErr e); pos := S p; events := [sent] |} in
  match net p with
  | Resolved d => {| outcome := Ret d; pos := S p; events := [sent] |}
  | Rejected e =>
      match budget with
      | S budget' =>
          if retryCondition e then
            let delay := retryDelay (S retryCount) in
            let left := (timeout - elapsed p - delay)%Z in
            if negb (timeout =? 0)%Z && (left <=? 0)%Z then failed e
            else
              let r := sendWithRetry axios m url budget' (S retryCount)
                         (if (timeout =? 0)%Z then timeout else left) (S p) in
              {| outcome := outcome r; pos := pos r;
                 events := sent :: RetryDelay (S retryCount) delay :: events r |}
          else failed e
      | O => failed e
      end
  end.
Proof.
  destruct budget as [|budget]; cbn [sendWithRetry];
    unfold bind at 1; unfold send at 1; cbn [outcome pos events fst snd];
    destruct (net p) as [d|e]; try reflexivity.
  destruct (retryCondition e); [|reflexivity]. cbv zeta.
  destruct (timeout =? 0)%Z; cbn [negb andb].
  - unfold bind at 1. unfold emit at 1. cbn [outcome pos events].
    destruct (outcome (sendWithRetry axios m url budget (S retryCount) timeout (S p)))
      eqn:E; cbn; rewrite ?E; reflexivity.
  - destruct (timeout - elapsed p - retryDelay (S retryCount) <=? 0)%Z;
      [reflexivity|].
    unfold bind at 1. unfold emit at 1. cbn [outcome pos events].
    destruct (outcome (sendWithRetry axios m url budget (S retryCount)
                         (timeout - elapsed p - retryDelay (S retryCount)) (S p)))
      eqn:E; cbn; rewrite ?E; reflexivity.
Qed.

Lemma timeSpent_S retryCount p j :
  timeSpent retryCount p (S j)
  = (elapsed p + retryDelay (S retryCount) + timeSpent (S retryCount) (S p) j)%Z.
Proof.
  unfold timeSpent. change (seq 0 (S j)) with (0 :: seq 1 j).
  cbn [map fold_right]. rewrite !Nat.add_0_r, <- seq_shift, map_map.
  f_equal. f_equal. apply map_ext. intros i.
  now rewrite <- !plus_n_Sm.
Qed.

Lemma retriedEvents_S axios m url retryCount n :
  retriedEvents axios m url retryCount (S n)
  = Send (token axios) (httpsAgent axios) m url
    :: RetryDelay (S retryCount) (retryDelay (S retryCount))
    :: retriedEvents axios m url (S retryCount) n.
Proof. reflexivity. Qed.

(** What the events of a retried request hold. *)
Lemma retriedEvents_spec axios m url n : forall retryCount,
  sends (retriedEvents axios m url retryCount n) = S n
  /\ retryDelays (retriedEvents axios m url retryCount n)
     = map (fun j => (j, retryDelay j)) (seq (S retryCount) n)
  /\ Forall (wireEvent axios) (retriedEvents axios m url retryCount n).
Proof.
  induction n as [|n IH]; intros retryCount.
  - cbn. repeat split. constructor; [now split|constructor].
  - rewrite retriedEvents_S. destruct (IH (S retryCount)) as [Hs [Hd Hw]].
    repeat split.
    + change (S (sends (retriedEvents axios m url (S retryCount) n)) = S (S n)).
      now rewrite Hs.
    + change ((S retryCount, retryDelay (S retryCount))
                :: retryDelays (retriedEvents axios m url (S retryCount) n)
              = map (fun j => (j, retryDelay j)) (seq (S retryCount) (S n))).
      now rewrite Hd.
    + constructor; [now split|constructor; [exact I|exact Hw]].
Qed.

(** The request stops at its first answer. *)
Ltac retry_stops axios m url retryCount Hnet :=
  exists 0; rewrite Nat.add_0_r, ?Hnet; cbv beta iota;
  let Hs := fresh "Hs" in
  let Hd := fresh "Hd" in
  let Hw := fresh "Hw" in
  destruct (retriedEvents_spec axios m url 0 retryCount) as [Hs [Hd Hw]];
  cbn [outcome pos events];
  (split; [lia|]); (split; [reflexivity|]); (split; [exact Hs|]);
  (split; [exact Hd|]); (split; [exact Hw|]);
  (split; [intros ? ?; lia|]); (split; [|reflexivity]).

(** What the interceptor does with a request, in full: it sends [S n] times
    for some [n] within the budget of retries, with the wait
    [retryDelay j] before retry [j]; the first [n] answers are rejections
    that the retry condition accepts, each with something left of the
    timeout; and the last answer decides the outcome, a rejection being
    final because the retries are spent, the condition refuses it, or
    the timeout is spent. *)
Lemma sendWithRetry_spec axios m url budget : forall retryCount timeout p,
  let r := sendWithRetry axios m url budget retryCount timeout p in
  exists n,
    n <= budget
    /\ pos r = S (p + n)
    /\ sends (events r) = S n
    /\ retryDelays (events r)
       = map (fun j => (j, retryDelay j)) (seq (S retryCount) n)
    /\ Forall (wireEvent axios) (events r)
    /\ (forall j, j < n ->
          exists e, net (p + j) = Rejected e /\ retryCondition e = true
                    /\ (timeout = 0
                        \/ 0 < timeout - timeSpent retryCount p (S j))%Z)
    /\ match net (p + n) with
       | Resolved d => outcome r = Ret d
       | Rejected e =>
           outcome r = Throw (AxiosErr e)
           /\ (n = budget
               \/ retryCondition e = false
               \/ (timeout <> 0 /\ timeout - timeSpent retryCount p (S n) <= 0)%Z)
       end
    /\ events r = retriedEvents axios m url retryCount n.
Proof.
  induction budget as [|budget IH]; intros retryCount timeout p r; subst r;
    rewrite sendWithRetry_eq; cbv zeta.
  - destruct (net p) as [d|e] eqn:Hnet;
      retry_stops axios m url retryCount Hnet; [reflexivity|].
    split; [reflexivity|now left].
  - destruct (net p) as [d|e] eqn:Hnet;
      [retry_stops axios m url retryCount Hnet; reflexivity|].
    assert (Hone : timeSpent retryCount p 1
                   = (elapsed p + retryDelay (S retryCount))%Z).
    { rewrite timeSpent_S. unfold timeSpent. cbn. lia. }
    destruct (retryCondition e) eqn:Hcond;
      [|retry_stops axios m url retryCount Hnet;
        split; [reflexivity|right; now left]].
    destruct (Z.eqb_spec timeout 0) as [Ht|Ht]; cbn [negb andb].
    + (* no timeout: the retry goes ahead *)
      destruct (IH (S retryCount) timeout (S p))
        as [n [Hn [Hpos [_ [_ [_ [Hrej [Hlast Hev]]]]]]]].
      set (r := sendWithRetry axios m url budget (S retryCount) timeout (S p)) in *.
      exists (S n). cbn [outcome pos events].
      rewrite Hev, <- retriedEvents_S.
      destruct (retriedEvents_spec axios m url (S n) retryCount) as [Hs [Hd Hw]].
      replace (p + S n) with (S p + n) by lia.
      (split; [lia|]); (split; [rewrite Hpos; lia|]); (split; [exact Hs|]);
      (split; [exact Hd|]); (split; [exact Hw|]); split; [|split; [|reflexivity]].
      * intros j Hj. destruct j as [|j].
        -- rewrite Nat.add_0_r. exists e. repeat split; auto.
        -- replace (p + S j) with (S p + j) by lia.
           destruct (Hrej j ltac:(lia)) as [e0 [He0 [Hc0 _]]].
           exists e0. repeat split; auto.
      * destruct (net (S p + n)); [exact Hlast|].
        destruct Hlast as [Ho [Hl|[Hl|[Hl _]]]]; (split; [exact Ho|]);
          [left; lia|right; now left|contradiction].
    + destruct (Z.leb_spec (timeout - elapsed p - retryDelay (S retryCount)) 0)
        as [Hspent|Hleft].
      * retry_stops axios m url retryCount Hnet.
        split; [reflexivity|right; right]. split; [exact Ht|]. rewrite Hone. lia.
      * set (left := (timeout - elapsed p - retryDelay (S retryCount))%Z) in *.
        destruct (IH (S retryCount) left (S p))
          as [n [Hn [Hpos [_ [_ [_ [Hrej [Hlast Hev]]]]]]]].
        set (r := sendWithRetry axios m url budget (S retryCount) left (S p)) in *.
        exists (S n). cbn [outcome pos events].
        rewrite Hev, <- retriedEvents_S.
        destruct (retriedEvents_spec axios m url (S n) retryCount) as [Hs [Hd Hw]].
        replace (p + S n) with (S p + n) by lia.
        assert (Hshift : forall j,
                  (timeout - timeSpent retryCount p (S (S j))
                   = left - timeSpent (S retryCount) (S p) (S j))%Z).
        { intros j. rewrite (timeSpent_S retryCount p (S j)). unfold left. lia. }
        (split; [lia|]); (split; [rewrite Hpos; lia|]); (split; [exact Hs|]);
        (split; [exact Hd|]); (split; [exact Hw|]); split; [|split; [|reflexivity]].
        -- intros j Hj. destruct j as [|j].
           ++ rewrite Nat.add_0_r. exists e. repeat split; auto.
              right. rewrite Hone. unfold left in Hleft. lia.
           ++ replace (p + S j) with (S p + j) by lia.
              destruct (Hrej j ltac:(lia)) as [e0 [He0 [Hc0 Hb0]]].
              exists e0. repeat split; auto. right. rewrite Hshift.
              destruct Hb0 as [Hb0|Hb0]; [lia|exact Hb0].
        -- destruct (net (S p + n)); [exact Hlast|].
           destruct Hlast as [Ho [Hl|[Hl|[Hl1 Hl2]]]]; (split; [exact Ho|]);
             [left; lia|right; now left|right; right].
           split; [exact Ht|]. rewrite Hshift. exact Hl2.
Qed.

Lemma request_eq axios m url p :
  request axios m url p =
  let r := sendWithRetry axios m url (config.maxRetries cfg) 0
             (config.timeoutMs cfg) p in
  {| outcome := outcome r; pos := pos r; events := Call m url :: events r |}.
Proof.
  unfold request, bind, emit. cbn [outcome pos events].
  destruct (outcome (sendWithRetry axios m url (config.maxRetries cfg) 0
                       (config.timeoutMs cfg) p)) eqn:E;
    cbn; rewrite ?E; reflexivity.
Qed.

(** A request returns or throws; it does not end the process. *)
Lemma request_no_exit axios m url p c : outcome (request axios m url p) <> Exit c.
Proof.
  rewrite request_eq. cbv zeta. cbn [outcome].
  destruct (sendWithRetry_spec axios m url (config.maxRetries cfg) 0
              (config.timeoutMs cfg) p)
    as [n [_ [_ [_ [_ [_ [_ [H _]]]]]]]].
  destruct (net (p + n)); [|destruct H as [H _]]; rewrite H; discriminate.
Qed.

Lemma request_wire axios m url p :
  exists wire, events (request axios m url p) = Call m url :: wire
               /\ Forall (wireEvent axios) wire.
Proof.
  rewrite request_eq. cbv zeta. cbn [events].
  destruct (sendWithRetry_spec axios m url (config.maxRetries cfg) 0
              (config.timeoutMs cfg) p)
    as [n [_ [_ [_ [_ [H _]]]]]].
  eexists. split; [reflexivity|exact H].
Qed.

Lemma request_calls axios m url p : calls (events (request axios m url p)) = [(m, url)].
Proof.
  destruct (request_wire axios m url p) as [wire [-> H]].
  change (calls (Call m url :: wire)) with ((m, url) :: calls wire).
  now rewrite (wire_calls _ _ H).
Qed.

Lemma request_sleeps axios m url p : sleeps (events (request axios m url p)) = [].
Proof.
  destruct (request_wire axios m url p) as [wire [-> H]].
  change (sleeps (Call m url :: wire)) with (sleeps wire).
  now rewrite (wire_sleeps _ _ H).
Qed.

Lemma request_agents axios m url p :
  Forall (fun a => a = httpsAgent axios) (agents (events (request axios m url p))).
Proof.
  destruct (request_wire axios m url p) as [wire [-> H]].
  change (agents (Call m url :: wire)) with (agents wire).
  now apply wire_agents.
Qed.

(** [checkAccountStatus] is its GET and a reading of the answer. *)
Lemma checkAccountStatus_eq axios i p :
  checkAccountStatus axios i p =
  let r := request axios GET statusUrl p in
  {| outcome :=
       match outcome r with
       | Ret response =>
           if (code response =? 200)%Z then
             match data response with
             | Some info => Ret {| isCheckedIn := done info; accountInfo := info |}
             | None => Throw TypeError
             end
           else Throw (Error (InvalidResponseCode (code response)))
       | Throw e => Throw e
       | Exit c => Exit c
       end;
     pos := pos r;
     events := events r |}.
Proof.
  unfold checkAccountStatus, tryCatch, bind. cbn zeta.
  destruct (outcome (request axios GET statusUrl p)) as [response|e|c] eqn:E;
    cbn; rewrite ?app_nil_r; try reflexivity.
  destruct (code response =? 200)%Z; cbn; rewrite ?app_nil_r; [|reflexivity].
  destruct (data response); cbn; rewrite ?app_nil_r; reflexivity.
Qed.

(** [performDailyCheckin] is its POST and a test of the answer's code. *)
Lemma performDailyCheckin_eq axios i p :
  performDailyCheckin axios i p =
  let r := request axios POST checkinUrl p in
  {| outcome :=
       match outcome r with
       | Ret response =>
           if (code response =? 200)%Z then Ret true
           else Throw (Error (InvalidResponseCode (code response)))
       | Throw e => Throw e
       | Exit c => Exit c
       end;
     pos := pos r;
     events := events r |}.
Proof.
  unfold performDailyCheckin, tryCatch, bind. cbn zeta.
  destruct (outcome (request axios POST checkinUrl p)) as [response|e|c] eqn:E;
    cbn; rewrite ?app_nil_r; try reflexivity.
  destruct (code response =? 200)%Z; cbn; rewrite ?app_nil_r; reflexivity.
Qed.

Lemma checkAccountStatus_no_exit axios i p c :
  outcome (checkAccountStatus axios i p) <> Exit c.
Proof.
  rewrite checkAccountStatus_eq. cbv zeta. cbn [outcome].
  pose proof (request_no_exit axios GET statusUrl p) as H.
  destruct (outcome (request axios GET statusUrl p)) as [response|e|c'].
  - destruct (code response =? 200)%Z; [destruct (data response)|]; discriminate.
  - discriminate.
  - now destruct (H c').
Qed.

Lemma performDailyCheckin_no_exit axios i p c :
  outcome (performDailyCheckin axios i p) <> Exit c.
Proof.
  rewrite performDailyCheckin_eq. cbv zeta. cbn [outcome].
  pose proof (request_no_exit axios POST checkinUrl p) as H.
  destruct (outcome (request axios POST checkinUrl p)) as [response|e|c'].
  - destruct (code response =? 200)%Z; discriminate.
  - discriminate.
  - now destruct (H c').
Qed.

Lemma checkAccountStatus_calls axios i p :
  calls (events (checkAccountStatus axios i p)) = [(GET, statusUrl)].
Proof. rewrite checkAccountStatus_eq. apply request_calls. Qed.

Lemma performDailyCheckin_calls axios i p :
  calls (events (performDailyCheckin axios i p)) = [(POST, checkinUrl)].
Proof. rewrite performDailyCheckin_eq. apply request_calls. Qed.

(** Building the client sends nothing: it returns the client, or the
    constructor of the proxy agent throws. *)
Lemma createAxiosInstance_eq tok proxy p :
  createAxiosInstance tok proxy p =
  match proxyTruthy proxy with
  | Some url =>
      if agentConstructs lib url
      then {| outcome := Ret {| token := tok; httpsAgent := Some url |};
              pos := p; events := [Client tok (Some url)] |}
      else {| outcome := Throw TypeError; pos := p; events := [] |}
  | None => {| outcome := Ret {| token := tok; httpsAgent := None |};
               pos := p; events := [Client tok None] |}
  end.
Proof.
  unfold createAxiosInstance, newHttpsProxyAgent, bind.
  destruct (proxyTruthy proxy) as [url|]; [|reflexivity].
  destruct (agentConstructs lib url); reflexivity.
Qed.

Lemma createAxiosInstance_ret tok proxy p axios :
  outcome (createAxiosInstance tok proxy p) = Ret axios ->
  createAxiosInstance tok proxy p
  = {| outcome := Ret axios; pos := p;
       events := [Client (token axios) (httpsAgent axios)] |}
  /\ token axios = tok /\ httpsAgent axios = proxyTruthy proxy.
Proof.
  rewrite createAxiosInstance_eq.
  destruct (proxyTruthy proxy) as [url|];
    [destruct (agentConstructs lib url)|]; cbn; intros H; inversion H; subst;
    auto.
Qed.

(** With its client built, [processAccount] runs the three steps. *)
Lemma processAccount_built tok proxy i p axios :
  outcome (createAxiosInstance tok proxy p) = Ret axios ->
  processAccount tok proxy i p = accountRun axios i p.
Proof.
  intros H. destruct (createAxiosInstance_ret _ _ _ _ H) as [E _].
  unfold processAccount, accountRun.
  unfold bind at 1. rewrite E. cbn [outcome pos events].
  unfold tryCatch, bind. cbn zeta.
  pose proof (@checkAccountStatus_no_exit axios i p) as N1.
  destruct (outcome (checkAccountStatus axios i p)) as [st|e|c] eqn:E1;
    cbn [outcome pos events]; rewrite ?E1; cbn; rewrite ?app_nil_r;
    try reflexivity.
  destruct (isCheckedIn st); cbn; rewrite ?app_nil_r; [reflexivity|].
  set (s1 := checkAccountStatus axios i p) in *.
  destruct (outcome (performDailyCheckin axios i (pos s1))) as [b|e|c] eqn:E2;
    cbn; rewrite ?E2; cbn; rewrite ?app_nil_r; try reflexivity.
  set (s2 := performDailyCheckin axios i (pos s1)) in *.
  destruct (outcome (checkAccountStatus axios i (pos s2))) as [v|e|c] eqn:E3;
    cbn; rewrite ?E3; cbn; rewrite ?app_nil_r; try reflexivity.
  destruct (isCheckedIn v); cbn; rewrite ?app_nil_r; reflexivity.
Qed.

(** Without a client there is no call: the constructor of the agent threw. *)
Lemma processAccount_not_built tok proxy i p :
  (forall axios, outcome (createAxiosInstance tok proxy p) <> Ret axios) ->
  processAccount tok proxy i p
  = {| outcome := Throw TypeError; pos := p; events := [] |}.
Proof.
  intros H. unfold processAccount. unfold bind at 1.
  rewrite createAxiosInstance_eq in *.
  destruct (proxyTruthy proxy) as [url|];
    [destruct (agentConstructs lib url)|]; cbn in *;
    try reflexivity; now edestruct H.
Qed.

(** ** The account processor *)

(** C3: when the first status check of an account reports the daily
    check-in as done, [processAccount] returns
    [{ success: true, alreadyCheckedIn: true }] and does nothing after that
    check: its events are the building of the client and the events of the
    one status check, so its only call is the GET of the status endpoint,
    with no POST and no second status check. *)
Theorem already_checked_in_is_skipped tok proxy i p axios st :
  outcome (createAxiosInstance tok proxy p) = Ret axios ->
  outcome (checkAccountStatus axios i p) = Ret st ->
  isCheckedIn st = true ->
  let r := processAccount tok proxy i p in
  outcome r = Ret {| success := true; alreadyCheckedIn := Some true; error := None |}
  /\ events r = Client tok (httpsAgent axios) :: events (checkAccountStatus axios i p)
  /\ pos r = pos (checkAccountStatus axios i p)
  /\ calls (events r) = [(GET, statusUrl)].
Proof.
  intros Hc H1 Hdone r. subst r.
  rewrite (processAccount_built _ _ i _ _ Hc).
  destruct (createAxiosInstance_ret _ _ _ _ Hc) as [_ [Htok _]].
  unfold accountRun. cbv zeta. rewrite H1, Hdone. cbn [outcome pos events].
  rewrite Htok. repeat split.
  change (calls (Client tok (httpsAgent axios) :: ?x)) with (calls x).
  change (calls (events (checkAccountStatus axios i p)) = [(GET, statusUrl)]).
  apply checkAccountStatus_calls.
Qed.

(** C4: when the first status check reports the check-in as not done and
    the POST of the check-in is answered with code 200, the second status
    check decides: if it reports the check-in as still not done,
    [processAccount] returns [{ success: false, error: 'Verification
    failed' }]; and it returns [{ success: true, alreadyCheckedIn: false }]
    exactly when the second check reports the check-in as done. *)
Theorem verification_decides tok proxy i p axios st response :
  outcome (createAxiosInstance tok proxy p) = Ret axios ->
  outcome (checkAccountStatus axios i p) = Ret st ->
  isCheckedIn st = false ->
  let s1 := checkAccountStatus axios i p in
  outcome (request axios POST checkinUrl (pos s1)) = Ret response ->
  code response = 200%Z ->
  let s3 := checkAccountStatus axios i (pos (performDailyCheckin axios i (pos s1))) in
  let r := processAccount tok proxy i p in
  (forall verify, outcome s3 = Ret verify -> isCheckedIn verify = false ->
     outcome r = Ret {| success := false; alreadyCheckedIn := None;
                        error := Some (Text "Verification failed") |})
  /\ (outcome r = Ret {| success := true; alreadyCheckedIn := Some false; error := None |}
      <-> exists verify, outcome s3 = Ret verify /\ isCheckedIn verify = true).
Proof.
  intros Hc H1 Hnot s1 Hpost Hcode s3 r. subst r s3 s1.
  rewrite (processAccount_built _ _ i _ _ Hc).
  assert (H2 : outcome (performDailyCheckin axios i (pos (checkAccountStatus axios i p)))
               = Ret true).
  { rewrite performDailyCheckin_eq. cbv zeta. cbn [outcome].
    rewrite Hpost, Hcode. reflexivity. }
  unfold accountRun. cbv zeta. rewrite H1, Hnot, H2. cbn [outcome].
  set (s3 := checkAccountStatus axios i _). split.
  - intros verify E Hv. now rewrite E, Hv.
  - split.
    + destruct (outcome s3) as [verify|e|c]; try discriminate.
      destruct (isCheckedIn verify) eqn:Hv; [|discriminate].
      intros _. now exists verify.
    + intros [verify [E Hv]]. now rewrite E, Hv.
Qed.

(** A check-in counted as made by the bot went through all three steps. *)
Lemma fresh_success_was_verified tok proxy i p :
  outcome (processAccount tok proxy i p)
  = Ret {| success := true; alreadyCheckedIn := Some false; error := None |} ->
  exists axios st b verify,
    outcome (createAxiosInstance tok proxy p) = Ret axios
    /\ outcome (checkAccountStatus axios i p) = Ret st
    /\ isCheckedIn st = false
    /\ outcome (performDailyCheckin axios i (pos (checkAccountStatus axios i p))) = Ret b
    /\ outcome (checkAccountStatus axios i
                  (pos (performDailyCheckin axios i (pos (checkAccountStatus axios i p)))))
       = Ret verify
    /\ isCheckedIn verify = true.
Proof.
  destruct (outcome (createAxiosInstance tok proxy p)) as [axios|e|c] eqn:Hc.
  - rewrite (processAccount_built _ _ i _ _ Hc).
    unfold accountRun, succeeded, failedWith. cbv zeta.
    set (s1 := checkAccountStatus axios i p).
    set (s2 := performDailyCheckin axios i (pos s1)).
    set (s3 := checkAccountStatus axios i (pos s2)).
    destruct (outcome s1) as [st|e|c] eqn:E1; [|now cbn..].
    destruct (isCheckedIn st) eqn:Hst; [now cbn|].
    destruct (outcome s2) as [b|e|c] eqn:E2; [|now cbn..].
    cbn [outcome].
    destruct (outcome s3) as [v|e|c] eqn:E3; [|discriminate..].
    destruct (isCheckedIn v) eqn:Hv; [|discriminate].
    intros _. now exists axios, st, b, v.
  - rewrite processAccount_not_built; [discriminate|]. intros a. rewrite Hc. discriminate.
  - rewrite processAccount_not_built; [discriminate|]. intros a. rewrite Hc. discriminate.
Qed.

(** The calls of an account, case by case. *)
Lemma accountRun_calls axios i p :
  let s1 := checkAccountStatus axios i p in
  calls (events (accountRun axios i p)) =
  match outcome s1 with
  | Ret st =>
      if isCheckedIn st then [(GET, statusUrl)]
      else match outcome (performDailyCheckin axios i (pos s1)) with
           | Ret _ => threeCalls
           | _ => [(GET, statusUrl); (POST, checkinUrl)]
           end
  | _ => [(GET, statusUrl)]
  end.
Proof.
  cbv zeta. unfold accountRun. cbv zeta.
  set (s1 := checkAccountStatus axios i p).
  set (s2 := performDailyCheckin axios i (pos s1)).
  set (built := Client (token axios) (httpsAgent axios)).
  assert (Hb : forall evs, calls (built :: evs) = calls evs) by reflexivity.
  destruct (outcome s1) as [st|e|c]; [destruct (isCheckedIn st)|..];
    try (cbn [events]; rewrite Hb; apply checkAccountStatus_calls).
  destruct (outcome s2) as [b|e|c]; cbn [events]; rewrite Hb, !calls_app;
    unfold s1, s2; rewrite ?checkAccountStatus_calls, ?performDailyCheckin_calls;
    reflexivity.
Qed.

(** C2, as the code has it: the calls of an account are the first calls of
    the sequence GET status, POST check-in, GET status, in this order and
    at most these three; the account makes all three exactly when its
    client is built, its first status check reports the check-in as not
    done, and the POST of the check-in succeeds. *)
Theorem calls_are_a_prefix_of_three tok proxy i p :
  let cs := calls (events (processAccount tok proxy i p)) in
  (exists n, n <= 3 /\ cs = firstn n threeCalls)
  /\ (cs = threeCalls <->
      exists axios st b,
        outcome (createAxiosInstance tok proxy p) = Ret axios
        /\ outcome (checkAccountStatus axios i p) = Ret st
        /\ isCheckedIn st = false
        /\ outcome (performDailyCheckin axios i (pos (checkAccountStatus axios i p)))
           = Ret b).
Proof.
  cbv zeta.
  destruct (outcome (createAxiosInstance tok proxy p)) as [axios|e|c] eqn:Hc.
  - rewrite (processAccount_built _ _ i _ _ Hc), accountRun_calls. cbv zeta. split.
    + destruct (outcome (checkAccountStatus axios i p)) as [st|e|c];
        [destruct (isCheckedIn st);
         [|destruct (outcome (performDailyCheckin axios i
                                (pos (checkAccountStatus axios i p))))]|..];
        ((now exists 1; split; [lia|]) || (now exists 2; split; [lia|])
         || (now exists 3; split; [lia|])).
    + split.
      * destruct (outcome (checkAccountStatus axios i p)) as [st|e|c] eqn:E1;
          [|discriminate..].
        destruct (isCheckedIn st) eqn:Hst; [discriminate|].
        destruct (outcome (performDailyCheckin axios i
                             (pos (checkAccountStatus axios i p)))) as [b|e|c] eqn:E2;
          [|discriminate..].
        intros _. now exists axios, st, b.
      * intros [axios' [st [b [Ha [E1 [Hst E2]]]]]].
        assert (axios' = axios) by congruence. subst axios'.
        now rewrite E1, Hst, E2.
  - rewrite processAccount_not_built by (intros a; rewrite Hc; discriminate).
    split; [now exists 0; split; [lia|]|].
    split; [discriminate|]. intros [a [st [b [Ha _]]]]. congruence.
  - rewrite processAccount_not_built by (intros a; rewrite Hc; discriminate).
    split; [now exists 0; split; [lia|]|].
    split; [discriminate|]. intros [a [st [b [Ha _]]]]. congruence.
Qed.

(** ** The loaders *)

Lemma keepLine_spec lines :
  filter keepLine (map trim lines) = spec_cleanLines lines.
Proof.
  induction lines as [|line rest IH]; [reflexivity|].
  cbn [map filter spec_cleanLines]. unfold keepLine at 1.
  destruct (trim line) as [|c s]; cbn [truthy startsWith andb negb]; [exact IH|].
  rewrite andb_true_r. destruct (N.eqb c HASH); cbn [negb]; now rewrite IH.
Qed.

Lemma spec_cleanLines_clean lines : Forall cleanEntry (spec_cleanLines lines).
Proof.
  induction lines as [|line rest IH]; [constructor|].
  cbn [spec_cleanLines]. pose proof (trim_trimmed line) as Ht.
  destruct (trim line) as [|c s]; [exact IH|].
  destruct (N.eqb c HASH) eqn:E; [exact IH|].
  constructor; [|exact IH]. repeat split; try apply Ht; [discriminate|].
  cbn. now rewrite E.
Qed.

(** Every kept entry is the trimmed form of a line of the file, and the
    entries come in the order of their lines. *)
Lemma spec_cleanLines_sub lines :
  exists keep, spec_cleanLines lines
               = map trim (map snd (filter fst (combine keep lines)))
               /\ List.length keep = List.length lines.
Proof.
  induction lines as [|line rest [keep [IH Hl]]]; [now exists []|].
  cbn [spec_cleanLines]. destruct (trim line) as [|c s] eqn:E.
  - exists (false :: keep). cbn [combine filter fst snd map List.length]. now rewrite Hl.
  - destruct (N.eqb c HASH).
    + exists (false :: keep). cbn [combine filter fst snd map List.length]. now rewrite Hl.
    + exists (true :: keep). cbn [combine filter fst snd map List.length].
      now rewrite E, IH, Hl.
Qed.

Lemma loadTokens_eq p :
  loadTokens p =
  match data_txt with
  | Contents data =>
      {| outcome := Ret (spec_cleanLines (split LF data)); pos := p; events := [] |}
  | _ => {| outcome := Exit 1%Z; pos := p; events := [ProcessExit 1%Z] |}
  end.
Proof.
  unfold loadTokens, tryCatch, bind, pathExists, readFile.
  destruct data_txt; cbn; rewrite ?keepLine_spec; reflexivity.
Qed.

Lemma loadProxies_eq p :
  loadProxies p =
  {| outcome :=
       Ret (if config.useProxy cfg then
              match proxy_txt with
              | Contents data => spec_cleanLines (split LF data)
              | _ => []
              end
            else []);
     pos := p; events := [] |}.
Proof.
  unfold loadProxies, tryCatch, bind, pathExists, readFile.
  destruct (config.useProxy cfg); cbn; [|reflexivity].
  destruct proxy_txt; cbn; rewrite ?keepLine_spec; reflexivity.
Qed.

(** C5: [loadTokens] and [loadProxies] return the lines of their file in
    file order, each trimmed, without the lines that are empty after
    trimming and those whose trimmed form starts with '#'; and no entry
    either of them ever returns is empty, starts with '#' or has white
    space at an end.  ([loadProxies] reads its file when [useProxy] is
    set.) *)
Theorem loaders_return_clean_lines tokensData proxiesData p :
  data_txt = Contents tokensData ->
  proxy_txt = Contents proxiesData ->
  config.useProxy cfg = true ->
  outcome (loadTokens p) = Ret (spec_cleanLines (split LF tokensData))
  /\ outcome (loadProxies p) = Ret (spec_cleanLines (split LF proxiesData))
  /\ join LF (split LF tokensData) = tokensData
  /\ join LF (split LF proxiesData) = proxiesData
  /\ (forall entries,
        outcome (loadTokens p) = Ret entries \/ outcome (loadProxies p) = Ret entries ->
        Forall cleanEntry entries).
Proof.
  intros Hd Hp Hu. rewrite loadTokens_eq, loadProxies_eq, Hd, Hp, Hu.
  cbn [outcome]. repeat split; try apply join_split.
  intros entries [H|H]; inversion H; subst; apply spec_cleanLines_clean.
Qed.

(** Whatever the files are, the entries returned are clean. *)
Lemma loaders_entries_clean p entries :
  outcome (loadTokens p) = Ret entries \/ outcome (loadProxies p) = Ret entries ->
  Forall cleanEntry entries.
Proof.
  rewrite loadTokens_eq, loadProxies_eq. intros [H|H].
  - destruct data_txt; inversion H; subst. apply spec_cleanLines_clean.
  - cbn in H. inversion H; subst.
    destruct (config.useProxy cfg); [|constructor].
    destruct proxy_txt; try constructor. apply spec_cleanLines_clean.
Qed.

(** ** The batch *)

Lemma accountRun_no_exit axios i p c : outcome (accountRun axios i p) <> Exit c.
Proof.
  unfold accountRun. cbv zeta.
  set (s1 := checkAccountStatus axios i p).
  set (s2 := performDailyCheckin axios i (pos s1)).
  set (s3 := checkAccountStatus axios i (pos s2)).
  pose proof (checkAccountStatus_no_exit axios i p) as N1.
  pose proof (performDailyCheckin_no_exit axios i (pos s1)) as N2.
  pose proof (checkAccountStatus_no_exit axios i (pos s2)) as N3.
  fold s1 in N1. fold s2 in N2. fold s3 in N3.
  destruct (outcome s1) as [st|e|c1]; [|discriminate|now destruct (N1 c1)].
  destruct (isCheckedIn st); [discriminate|].
  destruct (outcome s2) as [b|e|c2]; [|discriminate|now destruct (N2 c2)].
  cbn [outcome].
  destruct (outcome s3) as [v|e|c3]; [discriminate|discriminate|now destruct (N3 c3)].
Qed.

(** [processAccount] returns a result whenever its client is built: every
    exception of the three steps is caught and classified. *)
Lemma processAccount_returns tok proxy i p axios :
  outcome (createAxiosInstance tok proxy p) = Ret axios ->
  exists result, outcome (processAccount tok proxy i p) = Ret result.
Proof.
  intros Hc. rewrite (processAccount_built _ _ i _ _ Hc).
  pose proof (accountRun_no_exit axios i p) as N.
  unfold accountRun in *. cbv zeta in *.
  set (s1 := checkAccountStatus axios i p) in *.
  set (s2 := performDailyCheckin axios i (pos s1)) in *.
  set (s3 := checkAccountStatus axios i (pos s2)) in *.
  destruct (outcome s1) as [st|e|c1]; [|now eexists|now destruct (N c1)].
  destruct (isCheckedIn st); [now eexists|].
  destruct (outcome s2) as [b|e|c2]; [|now eexists|now destruct (N c2)].
  cbn [outcome] in *.
  destruct (outcome s3) as [v|e|c3]; [now eexists|now eexists|now destruct (N c3)].
Qed.

Lemma processAccount_no_exit tok proxy i p c :
  outcome (processAccount tok proxy i p) <> Exit c.
Proof.
  destruct (outcome (createAxiosInstance tok proxy p)) as [axios|e|c'] eqn:Hc.
  - rewrite (processAccount_built _ _ i _ _ Hc). apply accountRun_no_exit.
  - rewrite processAccount_not_built; [discriminate|]. intros a. rewrite Hc. discriminate.
  - rewrite processAccount_not_built; [discriminate|]. intros a. rewrite Hc. discriminate.
Qed.

Lemma checkAccountStatus_sleeps axios i p :
  sleeps (events (checkAccountStatus axios i p)) = [].
Proof. rewrite checkAccountStatus_eq. apply request_sleeps. Qed.

Lemma performDailyCheckin_sleeps axios i p :
  sleeps (events (performDailyCheckin axios i p)) = [].
Proof. rewrite performDailyCheckin_eq. apply request_sleeps. Qed.

Lemma checkAccountStatus_agents axios i p :
  Forall (fun a => a = httpsAgent axios) (agents (events (checkAccountStatus axios i p))).
Proof. rewrite checkAccountStatus_eq. apply request_agents. Qed.

Lemma performDailyCheckin_agents axios i p :
  Forall (fun a => a = httpsAgent axios) (agents (events (performDailyCheckin axios i p))).
Proof. rewrite performDailyCheckin_eq. apply request_agents. Qed.

(** The events of an account: its client first, then the events of the
    steps it takes; there is no wait between accounts among them, and the
    only agent in them is the client's. *)
Lemma accountRun_events axios i p :
  exists steps,
    events (accountRun axios i p) = Client (token axios) (httpsAgent axios) :: steps
    /\ sleeps steps = []
    /\ Forall (fun a => a = httpsAgent axios) (agents steps).
Proof.
  unfold accountRun. cbv zeta.
  set (s1 := checkAccountStatus axios i p).
  set (s2 := performDailyCheckin axios i (pos s1)).
  set (s3 := checkAccountStatus axios i (pos s2)).
  pose proof (checkAccountStatus_sleeps axios i p) as S1.
  pose proof (performDailyCheckin_sleeps axios i (pos s1)) as S2.
  pose proof (checkAccountStatus_sleeps axios i (pos s2)) as S3.
  pose proof (checkAccountStatus_agents axios i p) as A1.
  pose proof (performDailyCheckin_agents axios i (pos s1)) as A2.
  pose proof (checkAccountStatus_agents axios i (pos s2)) as A3.
  fold s1 in S1, A1. fold s2 in S2, A2. fold s3 in S3, A3.
  destruct (outcome s1) as [st|e|c1]; [destruct (isCheckedIn st)|..];
    try (eexists; split; [reflexivity|now split]).
  destruct (outcome s2) as [b|e|c2];
    (eexists; split; [reflexivity|]);
    rewrite !sleeps_app, !agents_app, ?S1, ?S2, ?S3; (split; [reflexivity|]);
    rewrite ?Forall_app; auto.
Qed.

Lemma processAccount_sleeps tok proxy i p :
  sleeps (events (processAccount tok proxy i p)) = [].
Proof.
  destruct (outcome (createAxiosInstance tok proxy p)) as [axios|e|c'] eqn:Hc.
  - rewrite (processAccount_built _ _ i _ _ Hc).
    destruct (accountRun_events axios i p) as [steps [-> [H _]]]. exact H.
  - now rewrite processAccount_not_built by (intros a; rewrite Hc; discriminate).
  - now rewrite processAccount_not_built by (intros a; rewrite Hc; discriminate).
Qed.

Lemma processAccount_agents tok proxy i p :
  Forall (fun a => a = proxyTruthy proxy) (agents (events (processAccount tok proxy i p))).
Proof.
  destruct (outcome (createAxiosInstance tok proxy p)) as [axios|e|c'] eqn:Hc.
  - rewrite (processAccount_built _ _ i _ _ Hc).
    destruct (createAxiosInstance_ret _ _ _ _ Hc) as [_ [_ Ha]].
    destruct (accountRun_events axios i p) as [steps [-> [_ H]]].
    rewrite <- Ha. constructor; [reflexivity|exact H].
  - rewrite processAccount_not_built by (intros a; rewrite Hc; discriminate). constructor.
  - rewrite processAccount_not_built by (intros a; rewrite Hc; discriminate). constructor.
Qed.

(** One turn of the loop. *)
Lemma accountsLoop_eq n proxies i tok rest r p :
  accountsLoop n proxies i (tok :: rest) r p =
  let a := processAccount tok (proxyFor proxies i) (i + 1) p in
  match outcome a with
  | Ret result =>
      let l := accountsLoop n proxies (S i) rest (count r result) (pos a) in
      {| outcome := outcome l; pos := pos l;
         events := events a
                   ++ (if i <? n - 1 then [Sleep (config.delayBetweenAccounts cfg)] else [])
                   ++ events l |}
  | Throw e => {| outcome := Throw e; pos := pos a; events := events a |}
  | Exit c => {| outcome := Exit c; pos := pos a; events := events a |}
  end.
Proof.
  cbn [accountsLoop]. unfold bind at 1. cbv zeta.
  destruct (outcome (processAccount tok (proxyFor proxies i) (i + 1) p)) as [result|e|c];
    [|reflexivity..].
  unfold bind at 1.
  destruct (i <? n - 1); cbn [emit ret outcome pos events];
    destruct (outcome (accountsLoop n proxies (S i) rest (count r result) _)) eqn:E;
    cbn; rewrite ?E; reflexivity.
Qed.

(** The tally grows by one account at a time, on one side or the other. *)
Lemma count_spec r result :
  results.total (count r result) = results.total r
  /\ results.successful (count r result) + results.failed (count r result)
     = S (results.successful r + results.failed r)
  /\ (results.alreadyCheckedIn r <= results.successful r ->
      results.alreadyCheckedIn (count r result) <= results.successful (count r result)).
Proof.
  unfold count. destruct (success result); cbn.
  - destruct (alreadyCheckedIn result) as [[|]|]; repeat split; lia.
  - repeat split; lia.
Qed.

(** The loop, from any index on: what its tally is when it returns, and
    what its events are, the runs of the accounts in order with the
    delay between every two. *)
Lemma accountsLoop_spec n proxies : forall rest i r p res,
  i + List.length rest = n ->
  outcome (accountsLoop n proxies i rest r p) = Ret res ->
  results.total res = results.total r
  /\ results.successful res + results.failed res
     = results.successful r + results.failed r + List.length rest
  /\ (results.alreadyCheckedIn r <= results.successful r ->
      results.alreadyCheckedIn res <= results.successful res)
  /\ exists blocks,
       events (accountsLoop n proxies i rest r p)
       = separated (Sleep (config.delayBetweenAccounts cfg)) blocks
       /\ Forall2 (fun jt block =>
                     exists q, block = events (processAccount (snd jt)
                                                 (proxyFor proxies (fst jt))
                                                 (fst jt + 1) q))
                  (indexedFrom i rest) blocks.
Proof.
  induction rest as [|tok rest IH]; intros i r p res Hn.
  - cbn. intros H. inversion H; subst. repeat split; try lia.
    exists []. split; [reflexivity|constructor].
  - rewrite accountsLoop_eq. cbv zeta.
    set (a := processAccount tok (proxyFor proxies i) (i + 1) p).
    destruct (outcome a) as [result|e|c] eqn:Ea; [|discriminate..].
    cbn [outcome events]. intros H.
    cbn [List.length] in Hn.
    destruct (IH (S i) (count r result) (pos a) res ltac:(lia) H)
      as [Ht [Hs [Hal [blocks [Hev Hbl]]]]].
    destruct (count_spec r result) as [Ct [Cs Cal]].
    repeat split; [congruence|cbn [List.length]; lia|auto|].
    exists (events a :: blocks). split.
    + rewrite Hev. destruct rest as [|tok' rest'].
      * assert (Hb : blocks = []) by (inversion Hbl; reflexivity).
        rewrite Hb. cbn [List.length] in Hn.
        replace (i <? n - 1) with false by (symmetry; apply Nat.ltb_ge; lia).
        cbn. now rewrite app_nil_r.
      * assert (Hb : exists b bs, blocks = b :: bs) by (inversion Hbl; eauto).
        destruct Hb as [b [bs Hb]]. rewrite Hb. cbn [List.length] in Hn.
        replace (i <? n - 1) with true by (symmetry; apply Nat.ltb_lt; lia).
        reflexivity.
    + unfold indexedFrom. cbn [List.length seq combine]. constructor; [|exact Hbl].
      now exists p.
Qed.

Lemma accountsLoop_no_exit n proxies : forall rest i r p c,
  outcome (accountsLoop n proxies i rest r p) <> Exit c.
Proof.
  induction rest as [|tok rest IH]; intros i r p c; [discriminate|].
  rewrite accountsLoop_eq. cbv zeta.
  pose proof (processAccount_no_exit tok (proxyFor proxies i) (i + 1) p) as N.
  destruct (outcome (processAccount tok (proxyFor proxies i) (i + 1) p)) as [result|e|c'];
    [apply IH|discriminate|now destruct (N c')].
Qed.

(** The loop returns a tally when every client can be built. *)
Lemma accountsLoop_returns n proxies :
  (forall url, agentConstructs lib url = true) ->
  forall rest i r p, exists res, outcome (accountsLoop n proxies i rest r p) = Ret res.
Proof.
  intros Hok. induction rest as [|tok rest IH]; intros i r p; [now eexists|].
  rewrite accountsLoop_eq. cbv zeta.
  assert (Hc : exists axios,
             outcome (createAxiosInstance tok (proxyFor proxies i) p) = Ret axios).
  { rewrite createAxiosInstance_eq.
    destruct (proxyTruthy (proxyFor proxies i)) as [url|]; [rewrite Hok|];
      now eexists. }
  destruct Hc as [axios Hc].
  destruct (processAccount_returns _ _ (i + 1) _ _ Hc) as [result ->].
  apply IH.
Qed.

(** A step that returns without an event or an answer of the network. *)
Lemma bind_silent {A B} (m : M A) (k : A -> M B) p a :
  m p = {| outcome := Ret a; pos := p; events := [] |} ->
  bind m k p = k a p.
Proof.
  intros H. unfold bind. rewrite H. cbn.
  destruct (k a p) as [o q evs]. destruct o; reflexivity.
Qed.

Lemma processAllAccounts_loaded p tokens proxies :
  outcome (loadTokens p) = Ret tokens ->
  outcome (loadProxies p) = Ret proxies ->
  processAllAccounts p
  = accountsLoop (List.length tokens) proxies 0 tokens
      {| results.total := List.length tokens; results.successful := 0;
         results.failed := 0; results.alreadyCheckedIn := 0 |} p.
Proof.
  intros Ht Hp. unfold processAllAccounts.
  rewrite (bind_silent _ _ p tokens).
  - rewrite (bind_silent _ _ p proxies); [reflexivity|].
    rewrite loadProxies_eq in *. cbn in Hp. now inversion Hp.
  - rewrite loadTokens_eq in *. destruct data_txt; try discriminate.
    cbn in Ht. now inversion Ht.
Qed.

Lemma processAllAccounts_not_loaded p :
  (forall tokens, outcome (loadTokens p) <> Ret tokens) ->
  processAllAccounts p
  = {| outcome := Exit 1%Z; pos := p; events := [ProcessExit 1%Z] |}
  /\ outcome (loadTokens p) = Exit 1%Z.
Proof.
  intros H. unfold processAllAccounts. unfold bind at 1.
  rewrite loadTokens_eq in *.
  destruct data_txt; cbn in *; try (split; reflexivity).
  now edestruct H.
Qed.

Lemma loadTokens_cases p :
  (exists tokens, outcome (loadTokens p) = Ret tokens)
  \/ (forall tokens, outcome (loadTokens p) <> Ret tokens).
Proof.
  rewrite loadTokens_eq. destruct data_txt; [right|right|left];
    try (intros t; discriminate). now eexists.
Qed.

Lemma loadProxies_returns p : exists proxies, outcome (loadProxies p) = Ret proxies.
Proof. rewrite loadProxies_eq. now eexists. Qed.

Lemma processAllAccounts_ret p res :
  outcome (processAllAccounts p) = Ret res ->
  exists tokens proxies,
    outcome (loadTokens p) = Ret tokens /\ outcome (loadProxies p) = Ret proxies.
Proof.
  intros H. destruct (loadTokens_cases p) as [[tokens Ht]|Hn].
  - destruct (loadProxies_returns p) as [proxies Hp]. now exists tokens, proxies.
  - destruct (processAllAccounts_not_loaded p Hn) as [E _].
    rewrite E in H. discriminate.
Qed.

(** The tally of a batch that returns: [total] is the number of loaded
    tokens, [successful + failed = total] and
    [alreadyCheckedIn <= successful]; an account adds one to exactly one
    of [successful] and [failed]; and [processAccount] returns a result,
    whatever its three steps throw, once its client is built. *)
Theorem tally_invariant p res :
  outcome (processAllAccounts p) = Ret res ->
  (exists tokens,
     outcome (loadTokens p) = Ret tokens
     /\ results.total res = List.length tokens)
  /\ results.successful res + results.failed res = results.total res
  /\ results.alreadyCheckedIn res <= results.successful res
  /\ (forall r result,
        (results.successful (count r result), results.failed (count r result))
        = if success result
          then (S (results.successful r), results.failed r)
          else (results.successful r, S (results.failed r)))
  /\ (forall tok proxy i q axios,
        outcome (createAxiosInstance tok proxy q) = Ret axios ->
        exists result, outcome (processAccount tok proxy i q) = Ret result).
Proof.
  intros H. destruct (processAllAccounts_ret p res H) as [tokens [proxies [Ht Hp]]].
  rewrite (processAllAccounts_loaded p tokens proxies Ht Hp) in H.
  apply accountsLoop_spec in H; [|reflexivity].
  destruct H as [Htot [Hsum [Hal _]]]. cbn in Htot, Hsum, Hal.
  repeat split.
  - exists tokens. split; [exact Ht|exact Htot].
  - lia.
  - apply Hal. lia.
  - intros r result. unfold count. now destruct (success result).
  - intros tok proxy i q axios. apply processAccount_returns.
Qed.

(** With every client built, the batch over loaded tokens returns a tally. *)
Lemma processAllAccounts_returns p tokens :
  outcome (loadTokens p) = Ret tokens ->
  (forall url, agentConstructs lib url = true) ->
  exists res, outcome (processAllAccounts p) = Ret res.
Proof.
  intros Ht Hok. destruct (loadProxies_returns p) as [proxies Hp].
  rewrite (processAllAccounts_loaded p tokens proxies Ht Hp).
  now apply accountsLoop_returns.
Qed.

Lemma sleeps_separated d blocks :
  Forall (fun block => sleeps block = []) blocks ->
  sleeps (separated (Sleep d) blocks) = repeat d (List.length blocks - 1).
Proof.
  induction 1 as [|b bs Hb Hbs IH]; [reflexivity|].
  destruct bs as [|b' bs']; [exact Hb|].
  change (separated (Sleep d) (b :: b' :: bs'))
    with (b ++ Sleep d :: separated (Sleep d) (b' :: bs')).
  rewrite sleeps_app, Hb.
  change (sleeps (Sleep d :: separated (Sleep d) (b' :: bs')))
    with (d :: sleeps (separated (Sleep d) (b' :: bs'))).
  rewrite IH. cbn [List.length app].
  replace (S (S (List.length bs')) - 1) with (S (S (List.length bs') - 1)) by lia.
  reflexivity.
Qed.

(** C8: the events of a batch that returns are the runs of
    [processAccount] on the tokens in file order, the account of index
    [j] with its token, the proxy of index [j] and the number [j + 1], one
    run after the other, with a wait of [config.delayBetweenAccounts]
    between every two runs and none after the last: the waits of a batch
    over [n] tokens are [n - 1] waits of that delay. *)
Theorem accounts_in_order_with_delay p res :
  outcome (processAllAccounts p) = Ret res ->
  exists tokens proxies blocks,
    outcome (loadTokens p) = Ret tokens
    /\ outcome (loadProxies p) = Ret proxies
    /\ events (processAllAccounts p)
       = separated (Sleep (config.delayBetweenAccounts cfg)) blocks
    /\ Forall2 (fun jt block =>
                  exists q, block = events (processAccount (snd jt)
                                              (proxyFor proxies (fst jt))
                                              (fst jt + 1) q))
               (combine (seq 0 (List.length tokens)) tokens) blocks
    /\ sleeps (events (processAllAccounts p))
       = repeat (config.delayBetweenAccounts cfg) (List.length tokens - 1).
Proof.
  intros H. destruct (processAllAccounts_ret p res H) as [tokens [proxies [Ht Hp]]].
  rewrite (processAllAccounts_loaded p tokens proxies Ht Hp) in *.
  apply accountsLoop_spec in H; [|reflexivity].
  destruct H as [_ [_ [_ [blocks [Hev Hbl]]]]].
  exists tokens, proxies, blocks. repeat split; try assumption.
  rewrite Hev, sleeps_separated.
  - f_equal. apply Forall2_length in Hbl. unfold indexedFrom in Hbl.
    rewrite length_combine, length_seq, Nat.min_id in Hbl. now rewrite Hbl.
  - clear Hev. induction Hbl as [|jt block ? ? [q Hq] _ IH]; constructor; [|exact IH].
    rewrite Hq. apply processAccount_sleeps.
Qed.

(** ** The proxy of an account *)



(** ** The outer loop *)

Lemma processAllAccounts_exit p c :
  outcome (processAllAccounts p) = Exit c ->
  c = 1%Z /\ outcome (loadTokens p) = Exit 1%Z.
Proof.
  intros H. destruct (loadTokens_cases p) as [[tokens Ht]|Hn].
  - destruct (loadProxies_returns p) as [proxies Hp].
    rewrite (processAllAccounts_loaded p tokens proxies Ht Hp) in H.
    now apply accountsLoop_no_exit in H.
  - destruct (processAllAccounts_not_loaded p Hn) as [E Hl].
    rewrite E in H. cbn in H. inversion H. now split.
Qed.

(** One call of [main]: the header, the batch, and the timer of the next
    call or the end of the process. *)
Lemma mainOnce_eq p :
  mainOnce p =
  let b := processAllAccounts p in
  match outcome b with
  | Ret _ => {| outcome := Ret tt; pos := pos b;
                events := Header :: events b ++ [Schedule nextRunDelay] |}
  | Throw _ => {| outcome := Exit 1%Z; pos := pos b;
                  events := Header :: events b ++ [ProcessExit 1%Z] |}
  | Exit c => {| outcome := Exit c; pos := pos b; events := Header :: events b |}
  end.
Proof.
  unfold mainOnce, tryCatch, bind, emit, exit. cbn [outcome pos events]. cbv zeta.
  destruct (outcome (processAllAccounts p)); reflexivity.
Qed.

Lemma main_eq n p :
  main (S n) p =
  let m := mainOnce p in
  match outcome m with
  | Ret _ => let r := main n (pos m) in
             {| outcome := outcome r; pos := pos r; events := events m ++ events r |}
  | Throw e => {| outcome := Throw e; pos := pos m; events := events m |}
  | Exit c => {| outcome := Exit c; pos := pos m; events := events m |}
  end.
Proof. reflexivity. Qed.

Lemma roundStart_shift k p :
  roundStart k (pos (processAllAccounts p)) = roundStart (S k) p.
Proof.
  induction k as [|k IH]; [reflexivity|].
  cbn [roundStart] in *. now rewrite IH.
Qed.

(** C9, as the code has it: while the batches complete, every call of
    [main] runs the whole batch and then arms a timer of exactly
    [config.nextRunDelayHours * 60 * 60 * 1000] milliseconds for the next
    call, and this for any number of calls; the process ends, with code 1,
    only in a call whose batch throws or whose [loadTokens] ends the
    process itself because [data.txt] cannot be read. *)
Theorem main_repeats_after_delay n p :
  ((forall k, k < n ->
      exists res, outcome (processAllAccounts (roundStart k p)) = Ret res) ->
   outcome (main n p) = Ret tt
   /\ pos (main n p) = roundStart n p
   /\ events (main n p)
      = flat_map (fun k =>
                    Header :: events (processAllAccounts (roundStart k p))
                    ++ [Schedule (config.nextRunDelayHours cfg * 60 * 60 * 1000)%Z])
                 (seq 0 n))
  /\ (forall c, outcome (main n p) = Exit c ->
        c = 1%Z
        /\ exists k,
             k < n
             /\ (forall j, j < k ->
                   exists res, outcome (processAllAccounts (roundStart j p)) = Ret res)
             /\ ((exists e, outcome (processAllAccounts (roundStart k p)) = Throw e)
                 \/ outcome (loadTokens (roundStart k p)) = Exit 1%Z)).
Proof.
  revert p. induction n as [|n IH]; intros p.
  - split; [intros _; now repeat split|]. intros c H. discriminate.
  - rewrite main_eq, mainOnce_eq. cbv zeta.
    destruct (IH (pos (processAllAccounts p))) as [IHa IHb].
    destruct (outcome (processAllAccounts p)) as [res|e|c0] eqn:Eb;
      cbn [outcome pos events].
    + split.
      * intros Hall.
        destruct IHa as [Ho [Hp He]].
        { intros k Hk. rewrite roundStart_shift. apply Hall. lia. }
        rewrite Ho, Hp, He. split; [reflexivity|]. split; [apply roundStart_shift|].
        change (seq 0 (S n)) with (0 :: seq 1 n). cbn [flat_map].
        rewrite <- seq_shift, (flat_map_concat_map _ (map S _)), map_map,
          <- flat_map_concat_map.
        unfold nextRunDelay. cbn [roundStart]. f_equal.
        apply flat_map_ext. intros k. now rewrite roundStart_shift.
      * intros c Hc. destruct (IHb c Hc) as [Hc1 [k [Hk [Hbefore Hat]]]].
        split; [exact Hc1|]. exists (S k). split; [lia|]. split.
        -- intros [|j] Hj; [now exists res|].
           rewrite <- roundStart_shift. apply Hbefore. lia.
        -- now rewrite <- !roundStart_shift.
    + split.
      * intros Hall. destruct (Hall 0 ltac:(lia)) as [res Hres].
        cbn [roundStart] in Hres. congruence.
      * intros c Hc. inversion Hc; subst c. split; [reflexivity|].
        exists 0. split; [lia|]. split; [intros j Hj; lia|].
        left. now exists e.
    + split.
      * intros Hall. destruct (Hall 0 ltac:(lia)) as [res Hres].
        cbn [roundStart] in Hres. congruence.
      * intros c Hc. inversion Hc; subst c.
        destruct (processAllAccounts_exit p c0 Eb) as [Hc0 Hl].
        split; [exact Hc0|].
        exists 0. split; [lia|]. split; [intros j Hj; lia|]. now right.
Qed.

(** ** The retry policy *)

(** C1, as the code has it: a request is sent again after a failure exactly
    while fewer than [config.maxRetries] retries were made, the failure is
    a network error for axios-retry, or a retryable error for axios-retry,
    or has one of the statuses 429, 500, 502, 503, 504, and the timeout of
    the request is not spent: [config.timeoutMs] is 0, or something of it
    is left after the time the requests so far took and the waits so far,
    with the wait that comes next.  So a network error and each of the
    five statuses pass the retry condition, and a request is retried at
    most [config.maxRetries] times. *)
Theorem retry_policy axios m url p :
  let r := request axios m url p in
  (forall e, retryCondition e = true <-> retriable e)
  /\ (forall e,
        isNetworkError lib e = true
        \/ (exists status,
              response e = Some status /\ In status [429; 500; 502; 503; 504]%Z) ->
        retryCondition e = true)
  /\ exists n,
       n <= config.maxRetries cfg
       /\ List.length (retryDelays (events r)) = n
       /\ sends (events r) = S n
       /\ (forall j, j < n ->
             exists e,
               net (p + j) = Rejected e
               /\ retriable e
               /\ (config.timeoutMs cfg = 0
                   \/ 0 < config.timeoutMs cfg - timeSpent 0 p (S j))%Z)
       /\ match net (p + n) with
          | Resolved d => outcome r = Ret d
          | Rejected e =>
              outcome r = Throw (AxiosErr e)
              /\ (n = config.maxRetries cfg
                  \/ ~ retriable e
                  \/ (config.timeoutMs cfg <> 0
                      /\ config.timeoutMs cfg - timeSpent 0 p (S n) <= 0)%Z)
          end.
Proof.
  cbv zeta. split; [exact retryCondition_iff|]. split.
  - intros e H. apply retryCondition_iff. unfold retriable in *. tauto.
  - rewrite request_eq. cbv zeta. cbn [outcome events].
    destruct (sendWithRetry_spec axios m url (config.maxRetries cfg) 0
                (config.timeoutMs cfg) p)
      as [n [Hn [_ [Hs [Hd [_ [Hrej [Hlast _]]]]]]]].
    set (r := sendWithRetry axios m url (config.maxRetries cfg) 0
                (config.timeoutMs cfg) p) in *.
    exists n. split; [exact Hn|]. split; [|split; [|split]].
    + change (retryDelays (Call m url :: events r)) with (retryDelays (events r)).
      now rewrite Hd, length_map, length_seq.
    + exact Hs.
    + intros j Hj. destruct (Hrej j Hj) as [e [He [Hc Hleft]]].
      exists e. split; [exact He|]. split; [now apply retryCondition_iff|exact Hleft].
    + destruct (net (p + n)) as [d|e]; [exact Hlast|].
      destruct Hlast as [Ho [Hb|[Hc|Ht]]]; (split; [exact Ho|]);
        [now left|right; left|right; now right].
      intros H. apply retryCondition_iff in H. congruence.
Qed.

(** C7: the wait before retry [n] of a request, [n] counting from 1, is
    [2 ^ n * config.retryDelay] milliseconds.  The events of a request
    that is sent [k + 1] times are its call, its first sending, and for
    each retry [n = 1 .. k], in this order, the wait of
    [2 ^ n * config.retryDelay] and then the sending: every retry has its
    wait before it, and each wait is twice the one before. *)
Theorem backoff_is_exponential axios m url p :
  (exists k,
     k <= config.maxRetries cfg
     /\ sends (events (request axios m url p)) = S k
     /\ events (request axios m url p)
        = Call m url
          :: Send (token axios) (httpsAgent axios) m url
          :: flat_map (fun n =>
                         [RetryDelay n (2 ^ Z.of_nat n * config.retryDelay cfg)%Z;
                          Send (token axios) (httpsAgent axios) m url])
                      (seq 1 k)
     /\ retryDelays (events (request axios m url p))
        = map (fun n => (n, (2 ^ Z.of_nat n * config.retryDelay cfg)%Z)) (seq 1 k))
  /\ (forall n, retryDelay (S n) = (2 * retryDelay n)%Z)
  /\ retryDelay 1 = (2 * config.retryDelay cfg)%Z.
Proof.
  split; [|split].
  - rewrite request_eq. cbv zeta. cbn [events].
    destruct (sendWithRetry_spec axios m url (config.maxRetries cfg) 0
                (config.timeoutMs cfg) p)
      as [k [Hk [_ [Hs [Hd [_ [_ [_ Hev]]]]]]]].
    set (r := sendWithRetry axios m url (config.maxRetries cfg) 0
                (config.timeoutMs cfg) p) in *.
    exists k. split; [exact Hk|]. split; [exact Hs|]. split.
    + rewrite Hev. reflexivity.
    + exact Hd.
  - intros n. unfold retryDelay. rewrite Nat2Z.inj_succ, Z.pow_succ_r by lia. lia.
  - unfold retryDelay. cbn. lia.
Qed.

(** ** More on the loaders *)

Lemma split_join sep pieces :
  pieces <> [] ->
  Forall (fun piece => ~ In sep piece) pieces ->
  split sep (join sep pieces) = pieces.
Proof.
  intros Hne H. induction H as [|piece rest Hp Hrest IH]; [contradiction|].
  assert (Hpiece : forall tail,
            split sep (piece ++ sep :: tail) = piece :: split sep tail).
  { intros tail. clear IH Hne Hrest. induction piece as [|c piece IHp]; cbn [app split].
    - now rewrite N.eqb_refl.
    - destruct (N.eqb_spec c sep) as [->|Hc]; [destruct Hp; now left|].
      rewrite IHp; [reflexivity|]. intros Hin. apply Hp. now right. }
  destruct rest as [|piece' rest'].
  - cbn [join]. clear IH Hne Hrest Hpiece. induction piece as [|c piece IHp]; [reflexivity|].
    cbn [split]. destruct (N.eqb_spec c sep) as [->|Hc]; [destruct Hp; now left|].
    rewrite IHp; [reflexivity|]. intros Hin. apply Hp. now right.
  - change (join sep (piece :: piece' :: rest'))
      with (piece ++ sep :: join sep (piece' :: rest')).
    rewrite Hpiece, IH; [reflexivity|discriminate].
Qed.

(** A string without white space at its ends is its own trimmed form. *)
Lemma trim_of_trimmed s : trimmed s -> trim s = s.
Proof.
  intros [Hhead Hlast]. unfold trim, trimEnd, trimStart.
  assert (Hfront : dropWhile isWhiteSpace s = s).
  { destruct s as [|c s']; [reflexivity|]. cbn [dropWhile].
    now rewrite (Hhead c s' eq_refl). }
  rewrite Hfront.
  destruct (rev s) as [|c r] eqn:E.
  - cbn. apply (f_equal (@rev _)) in E. now rewrite rev_involutive in E.
  - cbn [dropWhile].
    assert (Hs : s = rev r ++ [c]).
    { apply (f_equal (@rev _)) in E. now rewrite rev_involutive in E. }
    rewrite (Hlast c (rev r) Hs). cbn [rev]. now rewrite <- Hs.
Qed.

(** A part of a string holds only characters of the string. *)
Lemma trim_incl s c : In c (trim s) -> In c s.
Proof.
  destruct (trim_segment s) as [l [r [H _]]]. intros Hin.
  rewrite H. apply in_or_app. right. apply in_or_app. now left.
Qed.

(** The kept entries are trimmed forms of lines. *)
Lemma spec_cleanLines_lines lines :
  Forall (fun entry => exists line, In line lines /\ entry = trim line)
         (spec_cleanLines lines).
Proof.
  induction lines as [|line rest IH]; [constructor|].
  assert (IH' : Forall (fun entry => exists l, In l (line :: rest) /\ entry = trim l)
                       (spec_cleanLines rest)).
  { eapply Forall_impl; [|exact IH]. intros e [l [Hl He]]. exists l. split; [now right|exact He]. }
  cbn [spec_cleanLines]. destruct (trim line) as [|c s] eqn:E; [exact IH'|].
  destruct (N.eqb c HASH); [exact IH'|].
  constructor; [|exact IH']. exists line. split; [now left|now rewrite E].
Qed.

Lemma spec_cleanLines_no_LF data :
  Forall (fun entry => ~ In LF entry) (spec_cleanLines (split LF data)).
Proof.
  pose proof (spec_cleanLines_lines (split LF data)) as H.
  pose proof (split_no_sep LF data) as Hs. rewrite Forall_forall in Hs.
  eapply Forall_impl; [|exact H]. intros e [line [Hl ->]] Hin.
  apply (Hs line Hl). now apply trim_incl.
Qed.

(** Clean entries are kept as they are. *)
Lemma spec_cleanLines_fixed entries :
  Forall cleanEntry entries -> spec_cleanLines entries = entries.
Proof.
  induction 1 as [|e rest [Hne [Hhash Htrim]] _ IH]; [reflexivity|].
  cbn [spec_cleanLines]. rewrite (trim_of_trimmed e Htrim).
  destruct e as [|c s]; [contradiction|].
  cbn in Hhash. rewrite andb_true_r in Hhash. now rewrite Hhash, IH.
Qed.

(** Writing the kept entries one per line and reading them again gives the
    same entries. *)
Lemma spec_cleanLines_reload data :
  spec_cleanLines (split LF (join LF (spec_cleanLines (split LF data))))
  = spec_cleanLines (split LF data).
Proof.
  set (entries := spec_cleanLines (split LF data)).
  destruct entries as [|e rest] eqn:E; [reflexivity|].
  rewrite split_join.
  - apply spec_cleanLines_fixed. rewrite <- E. apply spec_cleanLines_clean.
  - discriminate.
  - rewrite <- E. apply spec_cleanLines_no_LF.
Qed.

(** X1: every entry that [loadTokens] or [loadProxies] returns is one line
    of its file: it holds no line feed, and it is the trimmed form of a
    line of the file. *)
Theorem loaded_entry_is_one_line p entries :
  (outcome (loadTokens p) = Ret entries ->
   Forall (fun entry =>
             ~ In LF entry
             /\ exists data line,
                  data_txt = Contents data
                  /\ In line (split LF data) /\ entry = trim line) entries)
  /\ (outcome (loadProxies p) = Ret entries ->
      Forall (fun entry =>
                ~ In LF entry
                /\ exists data line,
                     proxy_txt = Contents data
                     /\ In line (split LF data) /\ entry = trim line) entries).
Proof.
  assert (Hlines : forall data,
            Forall (fun entry =>
                      ~ In LF entry
                      /\ exists line, In line (split LF data) /\ entry = trim line)
                   (spec_cleanLines (split LF data))).
  { intros data. apply Forall_and;
      [apply spec_cleanLines_no_LF|apply spec_cleanLines_lines]. }
  rewrite loadTokens_eq, loadProxies_eq. split; intros H.
  - destruct data_txt as [| |data] eqn:E; inversion H; subst.
    eapply Forall_impl; [|apply (Hlines data)].
    intros e [Hno [line Hl]]. split; [exact Hno|]. now exists data, line.
  - cbn in H. inversion H; subst.
    destruct (config.useProxy cfg); [|constructor].
    destruct proxy_txt as [| |data] eqn:E; try constructor.
    eapply Forall_impl; [|apply (Hlines data)].
    intros e [Hno [line Hl]]. split; [exact Hno|]. now exists data, line.
Qed.

Lemma accountsLoop_nil_proxies n : forall rest i r p,
  Forall (fun a => a = None) (agents (events (accountsLoop n [] i rest r p))).
Proof.
  induction rest as [|tok rest IH]; intros i r p; [constructor|].
  rewrite accountsLoop_eq. cbv zeta.
  pose proof (processAccount_agents tok (proxyFor [] i) (i + 1) p) as Ha.
  assert (Hnull : proxyFor [] i = Null).
  { unfold proxyFor. cbn. now rewrite andb_false_r. }
  rewrite Hnull in *. cbn [proxyTruthy] in Ha.
  destruct (outcome (processAccount tok Null (i + 1) p)) as [result|e|c];
    cbn [events]; [|exact Ha..].
  rewrite !agents_app, !Forall_app. repeat split; [exact Ha| |apply IH].
  destruct (i <? n - 1); constructor.
Qed.

(** X4: a [proxy.txt] that is missing or cannot be read is no error:
    [loadProxies] returns no proxy, without an event, and the batch goes
    on with no agent on any client or request. *)
Theorem missing_proxy_file_is_ignored p :
  (proxy_txt = Missing \/ exists m, proxy_txt = Unreadable m) ->
  loadProxies p = {| outcome := Ret []; pos := p; events := [] |}
  /\ Forall (fun a => a = None) (agents (events (processAllAccounts p))).
Proof.
  intros Hfile.
  assert (Hl : loadProxies p = {| outcome := Ret []; pos := p; events := [] |}).
  { rewrite loadProxies_eq.
    destruct Hfile as [->|[m ->]]; now destruct (config.useProxy cfg). }
  split; [exact Hl|].
  destruct (loadTokens_cases p) as [[tokens Ht]|Hn].
  - rewrite (processAllAccounts_loaded p tokens []); [|exact Ht|now rewrite Hl].
    apply accountsLoop_nil_proxies.
  - destruct (processAllAccounts_not_loaded p Hn) as [E _]. rewrite E. constructor.
Qed.

(** X3: when [data.txt] is missing or cannot be read, every call of [main]
    ends the process with code 1 right after the header: no client is
    built, no request is sent, no timer is armed. *)
Theorem missing_token_file_ends_the_process n p :
  (data_txt = Missing \/ exists m, data_txt = Unreadable m) ->
  main (S n) p
  = {| outcome := Exit 1%Z; pos := p; events := [Header; ProcessExit 1%Z] |}.
Proof.
  intros Hfile. rewrite main_eq, mainOnce_eq. cbv zeta.
  assert (Hn : forall tokens, outcome (loadTokens p) <> Ret tokens).
  { intros tokens. rewrite loadTokens_eq.
    destruct Hfile as [->|[m ->]]; discriminate. }
  destruct (processAllAccounts_not_loaded p Hn) as [E _]. rewrite E. reflexivity.
Qed.

(** X13: with no token in [data.txt] (only blank lines and comments) the
    batch does nothing and returns the empty tally, and [main] arms the
    timer of the next run. *)
Theorem no_token_no_work p :
  outcome (loadTokens p) = Ret [] ->
  processAllAccounts p
  = {| outcome := Ret {| results.total := 0; results.successful := 0;
                         results.failed := 0; results.alreadyCheckedIn := 0 |};
       pos := p; events := [] |}
  /\ mainOnce p
     = {| outcome := Ret tt; pos := p;
          events := [Header; Schedule (config.nextRunDelayHours cfg * 60 * 60 * 1000)%Z] |}.
Proof.
  intros Ht. destruct (loadProxies_returns p) as [proxies Hp].
  assert (E : processAllAccounts p
              = {| outcome := Ret {| results.total := 0; results.successful := 0;
                                     results.failed := 0; results.alreadyCheckedIn := 0 |};
                   pos := p; events := [] |}).
  { now rewrite (processAllAccounts_loaded p [] proxies Ht Hp). }
  split; [exact E|]. rewrite mainOnce_eq, E. reflexivity.
Qed.

(** The agent of an account, read off the loaded proxies. *)
Lemma proxyTruthy_loaded p proxies i :
  outcome (loadProxies p) = Ret proxies ->
  proxyTruthy (proxyFor proxies i) = nth_error proxies i.
Proof.
  intros Hp.
  pose proof (loaders_entries_clean p proxies (or_intror Hp)) as Hclean.
  assert (Hoff : config.useProxy cfg = false -> proxies = []).
  { intros Hu. rewrite loadProxies_eq, Hu in Hp. cbn in Hp. now inversion Hp. }
  clear Hp. unfold proxyFor, arrayGet.
  destruct (config.useProxy cfg); cbn [andb].
  - destruct (Nat.ltb_spec i (List.length proxies)) as [Hlt|Hge].
    + destruct (nth_error proxies i) as [url|] eqn:E.
      * cbn [proxyTruthy]. rewrite Forall_forall in Hclean.
        destruct (Hclean url (nth_error_In _ _ E)) as [Hne _].
        destruct url; [contradiction|reflexivity].
      * apply nth_error_None in E. lia.
    + cbn. symmetry. now apply nth_error_None.
  - rewrite (Hoff eq_refl). cbn. now destruct i.
Qed.

(** X15: with the proxies that [loadProxies] returns, building the client
    of the account of index [i] gives the loaded proxy of index [i], when
    there is one, to the constructor of the proxy agent: the client gets
    an agent for that proxy when the constructor accepts it, and
    [createAxiosInstance] throws, with no client built, when the
    constructor throws.  The client of an account beyond the last proxy is
    built without an agent: that account connects without a proxy. *)
Theorem agent_is_the_loaded_proxy p proxies i tok q :
  outcome (loadProxies p) = Ret proxies ->
  createAxiosInstance tok (proxyFor proxies i) q
  = match nth_error proxies i with
    | Some url =>
        if agentConstructs lib url
        then {| outcome := Ret {| token := tok; httpsAgent := Some url |};
                pos := q; events := [Client tok (Some url)] |}
        else {| outcome := Throw TypeError; pos := q; events := [] |}
    | None =>
        {| outcome := Ret {| token := tok; httpsAgent := None |};
           pos := q; events := [Client tok None] |}
    end.
Proof.
  intros Hp. rewrite createAxiosInstance_eq, (proxyTruthy_loaded p proxies i Hp).
  reflexivity.
Qed.

(** X16: the client is built outside the [try] of [processAccount]: when
    the constructor of the proxy agent throws, [processAccount] throws
    without an event; and when this happens at the first account, [main]
    ends the process with code 1 without a request sent. *)
Theorem agent_failure_ends_the_process p tok rest url more :
  outcome (loadTokens p) = Ret (tok :: rest) ->
  outcome (loadProxies p) = Ret (url :: more) ->
  agentConstructs lib url = false ->
  (forall i q, processAccount tok (Proxy url) i q
               = {| outcome := Throw TypeError; pos := q; events := [] |})
  /\ mainOnce p
     = {| outcome := Exit 1%Z; pos := p; events := [Header; ProcessExit 1%Z] |}.
Proof.
  intros Ht Hp Hbad.
  pose proof (proxyTruthy_loaded p (url :: more) 0 Hp) as Hagent.
  cbn [nth_error] in Hagent.
  assert (Hproxy : proxyFor (url :: more) 0 = Proxy url).
  { unfold proxyFor, arrayGet in *. cbn [nth_error] in *.
    destruct (config.useProxy cfg && (0 <? List.length (url :: more)));
      [reflexivity|discriminate]. }
  rewrite Hproxy in Hagent.
  assert (Hthrow : forall i q, processAccount tok (Proxy url) i q
                     = {| outcome := Throw TypeError; pos := q; events := [] |}).
  { intros i q. apply processAccount_not_built. intros axios.
    rewrite createAxiosInstance_eq, Hagent, Hbad. discriminate. }
  split; [exact Hthrow|].
  rewrite mainOnce_eq, (processAllAccounts_loaded p _ _ Ht Hp), accountsLoop_eq.
  cbv zeta. rewrite Hproxy, Hthrow. reflexivity.
Qed.

(** ** More on the requests *)

Lemma exits_app a b : exits (a ++ b) = exits a ++ exits b.
Proof. apply flat_map_app. Qed.

Lemma wire_is_step axios evs :
  Forall (wireEvent axios) evs -> Forall (stepEvent axios) evs.
Proof.
  apply Forall_impl. intros ev. destruct ev; cbn; auto.
Qed.

Lemma step_exits axios evs : Forall (stepEvent axios) evs -> exits evs = [].
Proof.
  induction 1 as [|ev evs H _ IH]; [reflexivity|].
  destruct ev; cbn in *; try contradiction; exact IH.
Qed.

Lemma request_steps axios m url p :
  Forall (stepEvent axios) (events (request axios m url p)).
Proof.
  destruct (request_wire axios m url p) as [wire [-> H]].
  constructor; [exact I|now apply wire_is_step].
Qed.

(** A request sends at least once and at most [maxRetries + 1] times. *)
Lemma request_sends axios m url p :
  1 <= sends (events (request axios m url p)) <= S (config.maxRetries cfg).
Proof.
  rewrite request_eq. cbv zeta. cbn [events].
  destruct (sendWithRetry_spec axios m url (config.maxRetries cfg) 0
              (config.timeoutMs cfg) p)
    as [n [Hn [_ [Hs _]]]].
  change (sends (Call m url :: ?x)) with (sends x).
  change (1 <= sends (events (sendWithRetry axios m url (config.maxRetries cfg) 0
                                (config.timeoutMs cfg) p))
          <= S (config.maxRetries cfg)).
  rewrite Hs. lia.
Qed.

(** X11: a request is not sent again when its first answer is a response,
    when the retry condition refuses its first failure, or when
    [config.maxRetries] is 0: it returns the response, or throws the error
    of that first failure, after one sending and without a wait. *)
Theorem request_without_retry axios m url p :
  let sent := Send (token axios) (httpsAgent axios) m url in
  (forall d, net p = Resolved d ->
     request axios m url p
     = {| outcome := Ret d; pos := S p; events := [Call m url; sent] |})
  /\ (forall e, net p = Rejected e ->
        retryCondition e = false \/ config.maxRetries cfg = 0 ->
        request axios m url p
        = {| outcome := Throw (AxiosErr e); pos := S p;
             events := [Call m url; sent] |}).
Proof.
  cbv zeta. split.
  - intros d Hd. rewrite request_eq, sendWithRetry_eq, Hd. reflexivity.
  - intros e He Hno. rewrite request_eq, sendWithRetry_eq, He. cbv zeta.
    destruct Hno as [Hc|Hm].
    + rewrite Hc. now destruct (config.maxRetries cfg).
    + now rewrite Hm.
Qed.

Lemma waited_seq k retryCount :
  fold_right Z.add 0%Z
    (map snd (map (fun j => (j, retryDelay j)) (seq (S retryCount) k)))
  = ((2 ^ Z.of_nat (retryCount + k + 1) - 2 ^ Z.of_nat (retryCount + 1))
     * config.retryDelay cfg)%Z.
Proof.
  revert retryCount. induction k as [|k IH]; intros retryCount.
  - cbn [seq map fold_right]. rewrite Nat.add_0_r. lia.
  - cbn [seq map fold_right snd]. rewrite IH. unfold retryDelay.
    replace (S retryCount + k + 1) with (retryCount + S k + 1) by lia.
    replace (S retryCount + 1) with (S (retryCount + 1)) by lia.
    replace (S retryCount) with (retryCount + 1) at 1 by lia.
    rewrite (Nat2Z.inj_succ (retryCount + 1)), Z.pow_succ_r by lia. lia.
Qed.

(** X9: a request that is retried [k] times, so sent [k + 1] times, has
    waited [(2 ^ (k + 1) - 2) * config.retryDelay] milliseconds in all; so
    with a delay that is not negative, the waits of one request add up to
    at most [(2 ^ (maxRetries + 1) - 2) * config.retryDelay]. *)
Theorem total_wait_of_a_request axios m url p :
  (0 <= config.retryDelay cfg)%Z ->
  (exists k,
     k <= config.maxRetries cfg
     /\ sends (events (request axios m url p)) = S k
     /\ List.length (retryDelays (events (request axios m url p))) = k
     /\ waited (events (request axios m url p))
        = ((2 ^ Z.of_nat (k + 1) - 2) * config.retryDelay cfg)%Z)
  /\ (0 <= waited (events (request axios m url p))
      <= (2 ^ Z.of_nat (config.maxRetries cfg + 1) - 2) * config.retryDelay cfg)%Z.
Proof.
  intros Hd. rewrite request_eq. cbv zeta. cbn [events].
  destruct (sendWithRetry_spec axios m url (config.maxRetries cfg) 0
              (config.timeoutMs cfg) p)
    as [k [Hk [_ [Hs [Hdel _]]]]].
  set (r := sendWithRetry axios m url (config.maxRetries cfg) 0
              (config.timeoutMs cfg) p) in *.
  unfold waited.
  change (retryDelays (Call m url :: events r)) with (retryDelays (events r)).
  change (sends (Call m url :: events r)) with (sends (events r)).
  rewrite Hdel, waited_seq, length_map, length_seq. cbn [Nat.add].
  change (2 ^ Z.of_nat 1)%Z with 2%Z.
  assert (Hpow : (2 <= 2 ^ Z.of_nat (k + 1) <= 2 ^ Z.of_nat (config.maxRetries cfg + 1))%Z).
  { split.
    - change 2%Z with (2 ^ 1)%Z at 1. apply Z.pow_le_mono_r; lia.
    - apply Z.pow_le_mono_r; lia. }
  split.
  - exists k. split; [exact Hk|]. split; [exact Hs|split; reflexivity].
  - split; [apply Z.mul_nonneg_nonneg; lia|].
    apply Z.mul_le_mono_nonneg_r; lia.
Qed.

(** ** More on the account processor *)

Lemma request_resolved axios m url p d :
  net p = Resolved d ->
  request axios m url p
  = {| outcome := Ret d; pos := S p;
       events := [Call m url; Send (token axios) (httpsAgent axios) m url] |}.
Proof. intros Hd. rewrite request_eq, sendWithRetry_eq, Hd. reflexivity. Qed.

Lemma checkAccountStatus_steps axios i p :
  Forall (stepEvent axios) (events (checkAccountStatus axios i p))
  /\ sends (events (checkAccountStatus axios i p)) <= S (config.maxRetries cfg).
Proof.
  rewrite checkAccountStatus_eq. cbv zeta. cbn [events].
  split; [apply request_steps|apply request_sends].
Qed.

Lemma performDailyCheckin_steps axios i p :
  Forall (stepEvent axios) (events (performDailyCheckin axios i p))
  /\ sends (events (performDailyCheckin axios i p)) <= S (config.maxRetries cfg).
Proof.
  rewrite performDailyCheckin_eq. cbv zeta. cbn [events].
  split; [apply request_steps|apply request_sends].
Qed.

(** The events of an account after its client: events of its steps, with at
    most three requests and their retries. *)
Lemma accountRun_steps axios i p :
  exists steps,
    events (accountRun axios i p) = Client (token axios) (httpsAgent axios) :: steps
    /\ Forall (stepEvent axios) steps
    /\ sends steps <= 3 * S (config.maxRetries cfg).
Proof.
  unfold accountRun. cbv zeta.
  set (s1 := checkAccountStatus axios i p).
  set (s2 := performDailyCheckin axios i (pos s1)).
  set (s3 := checkAccountStatus axios i (pos s2)).
  destruct (checkAccountStatus_steps axios i p) as [F1 B1].
  destruct (performDailyCheckin_steps axios i (pos s1)) as [F2 B2].
  destruct (checkAccountStatus_steps axios i (pos s2)) as [F3 B3].
  fold s1 in F1, B1. fold s2 in F2, B2. fold s3 in F3, B3.
  destruct (outcome s1) as [st|e|c1]; [destruct (isCheckedIn st)|..];
    try (eexists; split; [reflexivity|split; [exact F1|lia]]).
  destruct (outcome s2) as [b|e|c2];
    (eexists; split; [reflexivity|]);
    rewrite ?Forall_app, !sends_app; (split; [auto|lia]).
Qed.

(** X5: an answer of the status endpoint that is a response with a [code]
    other than 200, or with [data] of the wrong shape, is not retried and
    fails the account at once: after this one request [processAccount]
    returns [{ success: false }] with the message of the error, and neither
    posts the check-in nor asks for the status again. *)
Theorem bad_answer_fails_the_account tok proxy i p axios d :
  outcome (createAxiosInstance tok proxy p) = Ret axios ->
  net p = Resolved d ->
  code d <> 200%Z \/ data d = None ->
  processAccount tok proxy i p
  = {| outcome :=
         Ret {| success := false; alreadyCheckedIn := None;
                error := Some (if (code d =? 200)%Z then EngineMessage
                               else InvalidResponseCode (code d)) |};
       pos := S p;
       events := [Client tok (httpsAgent axios);
                  Call GET statusUrl;
                  Send tok (httpsAgent axios) GET statusUrl] |}.
Proof.
  intros Hc Hd Hbad.
  rewrite (processAccount_built _ _ i _ _ Hc).
  destruct (createAxiosInstance_ret _ _ _ _ Hc) as [_ [Htok _]].
  unfold accountRun. cbv zeta.
  rewrite checkAccountStatus_eq, (request_resolved axios GET statusUrl p d Hd).
  cbv zeta. cbn [outcome pos events]. rewrite Htok.
  destruct (Z.eqb_spec (code d) 200) as [E|E].
  - destruct Hbad as [Hbad|Hbad]; [contradiction|]. rewrite Hbad. reflexivity.
  - reflexivity.
Qed.

(** X6: the result of [processAccount] says success only when the last
    thing the run did is a status check that reported the check-in as
    done; a result has [alreadyCheckedIn] and no [error] when it says
    success, and an [error] and no [alreadyCheckedIn] when it does not. *)
Theorem success_means_checked_in tok proxy i p r :
  outcome (processAccount tok proxy i p) = Ret r ->
  (success r = true ->
   (exists axios q st,
      outcome (createAxiosInstance tok proxy p) = Ret axios
      /\ outcome (checkAccountStatus axios i q) = Ret st
      /\ isCheckedIn st = true
      /\ pos (processAccount tok proxy i p) = pos (checkAccountStatus axios i q))
   /\ error r = None
   /\ exists already, alreadyCheckedIn r = Some already)
  /\ (success r = false ->
      alreadyCheckedIn r = None /\ exists m, error r = Some m).
Proof.
  destruct (outcome (createAxiosInstance tok proxy p)) as [axios|e|c] eqn:Hc.
  2,3: rewrite processAccount_not_built by (intros a; rewrite Hc; discriminate);
       discriminate.
  rewrite (processAccount_built _ _ i _ _ Hc).
  unfold accountRun, succeeded, failedWith. cbv zeta.
  set (s1 := checkAccountStatus axios i p).
  set (s2 := performDailyCheckin axios i (pos s1)).
  set (s3 := checkAccountStatus axios i (pos s2)).
  destruct (outcome s1) as [st|e|c] eqn:E1; cbn [outcome pos].
  - destruct (isCheckedIn st) eqn:Hst; cbn [outcome pos].
    + intros H. inversion H; subst r. cbn. split; [|discriminate].
      intros _. split; [|split; [reflexivity|now exists true]].
      now exists axios, p, st.
    + destruct (outcome s2) as [b|e|c] eqn:E2; cbn [outcome pos].
      * destruct (outcome s3) as [v|e|c] eqn:E3; [|intros H; inversion H; subst r; cbn..].
        -- destruct (isCheckedIn v) eqn:Hv; intros H; inversion H; subst r; cbn.
           ++ split; [|discriminate].
              intros _. split; [|split; [reflexivity|now exists false]].
              now exists axios, (pos s2), v.
           ++ split; [discriminate|]. intros _. split; [reflexivity|now eexists].
        -- split; [discriminate|]. intros _. split; [reflexivity|now eexists].
      * intros H; inversion H; subst r; cbn.
        split; [discriminate|]. intros _. split; [reflexivity|now eexists].
      * discriminate.
  - intros H; inversion H; subst r; cbn.
    split; [discriminate|]. intros _. split; [reflexivity|now eexists].
  - discriminate.
Qed.

(** X7: [processAccount] posts the check-in only after a status check that
    reported it as not done, and posts it to the check-in endpoint: an
    account that is already checked in is never checked in again. *)
Theorem checkin_only_when_due tok proxy i p url :
  In (POST, url) (calls (events (processAccount tok proxy i p))) ->
  url = checkinUrl
  /\ exists axios st,
       outcome (createAxiosInstance tok proxy p) = Ret axios
       /\ outcome (checkAccountStatus axios i p) = Ret st
       /\ isCheckedIn st = false.
Proof.
  destruct (outcome (createAxiosInstance tok proxy p)) as [axios|e|c] eqn:Hc.
  2,3: rewrite processAccount_not_built by (intros a; rewrite Hc; discriminate);
       intros [].
  rewrite (processAccount_built _ _ i _ _ Hc), accountRun_calls. cbv zeta.
  assert (Hone : In (POST, url) [(GET, statusUrl)] -> False).
  { intros [H|[]]. discriminate H. }
  destruct (outcome (checkAccountStatus axios i p)) as [st|e|c] eqn:E1;
    [|intros H; now destruct (Hone H)..].
  destruct (isCheckedIn st) eqn:Hst; [intros H; now destruct (Hone H)|].
  intros Hin. split; [|now exists axios, st].
  destruct (outcome (performDailyCheckin axios i _)); cbn in Hin;
    repeat (destruct Hin as [Hin|Hin]; [now inversion Hin|]); contradiction.
Qed.

Lemma processAccount_steps tok proxy i p :
  sends (events (processAccount tok proxy i p)) <= 3 * S (config.maxRetries cfg)
  /\ exits (events (processAccount tok proxy i p)) = [].
Proof.
  destruct (outcome (createAxiosInstance tok proxy p)) as [axios|e|c] eqn:Hc.
  2,3: rewrite processAccount_not_built by (intros a; rewrite Hc; discriminate);
       cbn; split; [lia|reflexivity].
  rewrite (processAccount_built _ _ i _ _ Hc).
  destruct (accountRun_steps axios i p) as [steps [-> [Hsteps Hsends]]].
  split.
  - exact Hsends.
  - exact (step_exits axios steps Hsteps).
Qed.

(** The requests and exits of the loop. *)
Lemma accountsLoop_steps n proxies : forall rest i r p,
  sends (events (accountsLoop n proxies i rest r p))
  <= 3 * S (config.maxRetries cfg) * List.length rest
  /\ exits (events (accountsLoop n proxies i rest r p)) = [].
Proof.
  induction rest as [|tok rest IH]; intros i r p.
  - cbn. split; [lia|reflexivity].
  - rewrite accountsLoop_eq. cbv zeta.
    destruct (processAccount_steps tok (proxyFor proxies i) (i + 1) p) as [Hs He].
    set (a := processAccount tok (proxyFor proxies i) (i + 1) p) in *.
    destruct (outcome a) as [result|e|c]; cbn [events List.length];
      [|split; [nia|exact He]..].
    destruct (IH (S i) (count r result) (pos a)) as [Is Ie].
    rewrite !sends_app, !exits_app, He, Ie.
    assert (Hsep : forall b : bool,
              sends (if b then [Sleep (config.delayBetweenAccounts cfg)] else []) = 0
              /\ exits (if b then [Sleep (config.delayBetweenAccounts cfg)] else []) = [])
      by (intros [|]; now split).
    destruct (Hsep (i <? n - 1)) as [-> ->].
    split; [nia|reflexivity].
Qed.


(** ** More on the batch and the outer loop *)

Lemma processAllAccounts_exits p :
  match outcome (processAllAccounts p) with
  | Exit c => c = 1%Z /\ events (processAllAccounts p) = [ProcessExit 1%Z]
  | _ => exits (events (processAllAccounts p)) = []
  end.
Proof.
  destruct (loadTokens_cases p) as [[tokens Ht]|Hn].
  - destruct (loadProxies_returns p) as [proxies Hp].
    rewrite (processAllAccounts_loaded p tokens proxies Ht Hp).
    pose proof (accountsLoop_no_exit (List.length tokens) proxies tokens 0
                  {| results.total := List.length tokens; results.successful := 0;
                     results.failed := 0; results.alreadyCheckedIn := 0 |} p) as N.
    destruct (accountsLoop_steps (List.length tokens) proxies tokens 0
                {| results.total := List.length tokens; results.successful := 0;
                   results.failed := 0; results.alreadyCheckedIn := 0 |} p)
      as [_ He].
    destruct (outcome (accountsLoop _ _ _ _ _ _)) as [res|e|c];
      [exact He|exact He|now destruct (N c)].
  - destruct (processAllAccounts_not_loaded p Hn) as [E _]. rewrite E. now split.
Qed.

(** X12: no exception of a batch escapes [main], and [process.exit] is the
    last thing a run does: a run that goes on has not called it, and a run
    that ends the process has called it once, with code 1, as its last
    event. *)
Theorem nothing_after_exit n p :
  match outcome (main n p) with
  | Ret _ => exits (events (main n p)) = []
  | Exit c =>
      c = 1%Z
      /\ exists evs, events (main n p) = evs ++ [ProcessExit 1%Z] /\ exits evs = []
  | Throw _ => False
  end.
Proof.
  revert p. induction n as [|n IH]; intros p; [reflexivity|].
  rewrite main_eq, mainOnce_eq. cbv zeta.
  pose proof (processAllAccounts_exits p) as Hb.
  destruct (outcome (processAllAccounts p)) as [res|e|c]; cbn [outcome pos events].
  - specialize (IH (pos (processAllAccounts p))).
    set (b := processAllAccounts p) in *.
    set (r := main n (pos b)) in *.
    assert (Hhead : exits (Header :: events b ++ [Schedule nextRunDelay]) = []).
    { change (exits (events b ++ [Schedule nextRunDelay]) = []).
      now rewrite exits_app, Hb. }
    destruct (outcome r) as [u|e|c].
    + now rewrite exits_app, Hhead, IH.
    + exact IH.
    + destruct IH as [Hc [evs [Hev Hex]]]. split; [exact Hc|].
      exists ((Header :: events b ++ [Schedule nextRunDelay]) ++ evs). split.
      * rewrite Hev. now rewrite app_assoc.
      * now rewrite exits_app, Hhead, Hex.
  - split; [reflexivity|]. exists (Header :: events (processAllAccounts p)).
    split; [reflexivity|]. exact Hb.
  - destruct Hb as [Hc Hev]. split; [exact Hc|]. exists [Header].
    split; [now rewrite Hev|reflexivity].
Qed.

(** The loop returns the tally of the results of its accounts. *)
Lemma accountsLoop_results n proxies : forall rest i r p res,
  outcome (accountsLoop n proxies i rest r p) = Ret res ->
  exists rs,
    res = fold_left count rs r
    /\ Forall2 (fun jt result =>
                  exists q, outcome (processAccount (snd jt)
                                       (proxyFor proxies (fst jt))
                                       (fst jt + 1) q) = Ret result)
               (indexedFrom i rest) rs.
Proof.
  induction rest as [|tok rest IH]; intros i r p res.
  - cbn. intros H. inversion H; subst. exists []. split; [reflexivity|constructor].
  - rewrite accountsLoop_eq. cbv zeta.
    set (a := processAccount tok (proxyFor proxies i) (i + 1) p).
    destruct (outcome a) as [result|e|c] eqn:Ea; [|discriminate..].
    cbn [outcome]. intros H.
    destruct (IH (S i) (count r result) (pos a) res H) as [rs [Hres Hrs]].
    exists (result :: rs). split; [exact Hres|].
    unfold indexedFrom. cbn [List.length seq combine]. constructor; [|exact Hrs].
    now exists p.
Qed.

Lemma fold_count rs : forall r,
  let res := fold_left count rs r in
  results.total res = results.total r
  /\ results.successful res
     = results.successful r + List.length (filter success rs)
  /\ results.failed res
     = results.failed r + List.length (filter (fun x => negb (success x)) rs)
  /\ results.alreadyCheckedIn res
     = results.alreadyCheckedIn r
       + List.length (filter (fun x => success x
                                && match alreadyCheckedIn x with
                                   | Some true => true
                                   | _ => false
                                   end) rs).
Proof.
  induction rs as [|x rs IH]; intros r; cbv zeta.
  - cbn. repeat split; lia.
  - cbn [fold_left filter]. destruct (IH (count r x)) as [Ht [Hs [Hf Ha]]].
    rewrite Ht, Hs, Hf, Ha. unfold count.
    destruct (success x); cbn [negb andb].
    + destruct (alreadyCheckedIn x) as [[|]|]; cbn; repeat split; lia.
    + cbn. repeat split; lia.
Qed.

(** X14: the tally of a batch counts the results of its accounts:
    [successful] is the number of results that say success, [failed] the
    number of the others, and [alreadyCheckedIn] the number of results
    that say success with [alreadyCheckedIn] true, each result being what
    [processAccount] returned for the token of that index. *)
Theorem tally_counts_the_results p res :
  outcome (processAllAccounts p) = Ret res ->
  exists tokens proxies rs,
    outcome (loadTokens p) = Ret tokens
    /\ outcome (loadProxies p) = Ret proxies
    /\ Forall2 (fun jt result =>
                  exists q, outcome (processAccount (snd jt)
                                       (proxyFor proxies (fst jt))
                                       (fst jt + 1) q) = Ret result)
               (combine (seq 0 (List.length tokens)) tokens) rs
    /\ res = tallyOf (List.length tokens) rs
    /\ results.successful res = List.length (filter success rs)
    /\ results.failed res = List.length (filter (fun x => negb (success x)) rs)
    /\ results.alreadyCheckedIn res
       = List.length (filter (fun x => success x
                                && match alreadyCheckedIn x with
                                   | Some true => true
                                   | _ => false
                                   end) rs).
Proof.
  intros H. destruct (processAllAccounts_ret p res H) as [tokens [proxies [Ht Hp]]].
  rewrite (processAllAccounts_loaded p tokens proxies Ht Hp) in H.
  apply accountsLoop_results in H. destruct H as [rs [Hres Hrs]].
  exists tokens, proxies, rs.
  destruct (fold_count rs {| results.total := List.length tokens;
                             results.successful := 0; results.failed := 0;
                             results.alreadyCheckedIn := 0 |})
    as [_ [Hs [Hf Ha]]].
  cbv zeta in *. rewrite <- Hres in Hs, Hf, Ha. cbn in Hs, Hf, Ha.
  repeat split; assumption.
Qed.

End Bot.

(** ** Concrete runs of the bot *)

Import Example.

(** A response with status 501 is sent again after [2 * retryDelay]. *)
Example request_retries_501 :
  request lib cfg oneError501 quick clientA GET (lit "/status") 0
  = {| outcome := Ret {| code := 200%Z; data := Some (info true) |};
       pos := 2;
       events := [Call GET (lit "/status");
                  Send tokenA None GET (lit "/status");
                  RetryDelay 1 2000%Z;
                  Send tokenA None GET (lit "/status")] |}.
Proof. reflexivity. Qed.

(** C1 does not hold as stated: with the predicates of axios-retry, a
    response with status 501 is no network error and 501 is none of the
    five statuses, and the retry condition accepts it. *)
Lemma status_501_is_retried : ~ retriedExactlyOnListed lib.
Proof.
  intros H. destruct (H error501) as [Honly _].
  destruct (Honly eq_refl) as [Hnet|[status [Hs Hin]]].
  - discriminate Hnet.
  - inversion Hs; subst status. cbn in Hin.
    repeat (destruct Hin as [Hin|Hin]; [discriminate Hin|]). exact Hin.
Qed.

(** C2 does not hold as stated: the account that is already checked in
    makes one call. *)
Lemma checked_in_account_makes_one_call : ~ alwaysThreeCalls lib cfg allCheckedIn quick.
Proof.
  intros H. specialize (H tokenA Null 1 0). vm_compute in H. discriminate H.
Qed.

(** The account that the bot checks in makes the three calls. *)
Example checked_in_by_the_bot :
  calls (events (processAccount lib cfg checkInWorks quick tokenA Null 1 0)) = threeCalls cfg
  /\ outcome (processAccount lib cfg checkInWorks quick tokenA Null 1 0)
     = Ret {| success := true; alreadyCheckedIn := Some false; error := None |}.
Proof. split; reflexivity. Qed.

(** C9 does not hold as stated: without [data.txt] the process ends in
    [loadTokens], and no batch has thrown. *)
Lemma missing_tokens_exit_without_throw :
  ~ exitsOnlyOnThrow lib cfg Missing (Contents proxyTxt) allCheckedIn quick.
Proof.
  intros H. destruct (H 1 0 1%Z eq_refl) as [k [e [Hk He]]].
  assert (k = 0) by lia. subst k. vm_compute in He. discriminate He.
Qed.

(** The account of [tokenA] when the service reports every check-in as
    done: one GET, and the result says already checked in. *)
Lemma already_checked_in_is_skipped_witness :
  outcome (processAccount lib cfg allCheckedIn quick tokenA Null 1 0)
  = Ret {| success := true; alreadyCheckedIn := Some true; error := None |}
  /\ calls (events (processAccount lib cfg allCheckedIn quick tokenA Null 1 0))
     = [(GET, lit "/status")].
Proof.
  destruct (already_checked_in_is_skipped lib cfg allCheckedIn quick tokenA Null 1 0
              clientA (status true) eq_refl eq_refl eq_refl)
    as [Hout [_ [_ Hcalls]]].
  split; [exact Hout|exact Hcalls].
Defined.

(** The account of [tokenA] when the service accepts the POST and still
    reports the check-in as not done. *)
Lemma verification_decides_witness :
  outcome (processAccount lib cfg neverDone quick tokenA Null 1 0)
  = Ret {| success := false; alreadyCheckedIn := None;
           error := Some (Text "Verification failed") |}.
Proof.
  apply (proj1 (verification_decides lib cfg neverDone quick tokenA Null 1 0
                  clientA (status false)
                  {| code := 200%Z; data := Some (info false) |}
                  eq_refl eq_refl eq_refl eq_refl eq_refl)
               (status false));
    reflexivity.
Defined.

(** The two files of the example: the padded token is trimmed, the comment
    and the blank lines are gone, the order is kept. *)
Lemma loaders_return_clean_lines_witness :
  outcome (loadTokens (Contents dataTxt) 0) = Ret [tokenA; tokenB]
  /\ outcome (loadProxies cfg (Contents proxyTxt) 0) = Ret [lit "http://10.0.0.1:8080"].
Proof.
  destruct (loaders_return_clean_lines cfg (Contents dataTxt) (Contents proxyTxt)
              dataTxt proxyTxt 0 eq_refl eq_refl eq_refl)
    as [Htokens [Hproxies _]].
  split; [exact Htokens|exact Hproxies].
Defined.

(** The batch over the two tokens of the example and its tally. *)
Lemma tally_invariant_witness :
  outcome (processAllAccounts lib cfg (Contents dataTxt) (Contents proxyTxt)
             checkInWorks quick 0) = Ret tally
  /\ results.successful tally + results.failed tally = results.total tally
  /\ results.alreadyCheckedIn tally <= results.successful tally.
Proof.
  assert (Hrun : outcome (processAllAccounts lib cfg (Contents dataTxt)
                            (Contents proxyTxt) checkInWorks quick 0) = Ret tally)
    by (vm_compute; reflexivity).
  destruct (tally_invariant lib cfg (Contents dataTxt) (Contents proxyTxt)
              checkInWorks quick 0 tally Hrun)
    as [_ [Hsum [Hle _]]].
  split; [exact Hrun|split; [exact Hsum|exact Hle]].
Defined.

(** The batch over the two tokens of the example waits once, 5000 ms. *)
Lemma accounts_in_order_with_delay_witness :
  sleeps (events (processAllAccounts lib cfg (Contents dataTxt) (Contents proxyTxt)
                    checkInWorks quick 0))
  = [5000%Z].
Proof.
  assert (Hrun : outcome (processAllAccounts lib cfg (Contents dataTxt)
                            (Contents proxyTxt) checkInWorks quick 0) = Ret tally)
    by (vm_compute; reflexivity).
  destruct (accounts_in_order_with_delay lib cfg (Contents dataTxt) (Contents proxyTxt)
              checkInWorks quick 0 tally Hrun)
    as [tokens [loaded [blocks [Ht [_ [_ [_ Hsleeps]]]]]]].
  assert (Htokens : tokens = [tokenA; tokenB])
    by (vm_compute in Ht; inversion Ht; reflexivity).
  rewrite Hsleeps, Htokens. reflexivity.
Defined.

(** Two calls of [main] over the two tokens: both batches complete, each
    with its one wait between the accounts. *)
Lemma main_repeats_after_delay_witness :
  outcome (main lib cfg (Contents dataTxt) (Contents proxyTxt) allCheckedIn quick 2 0) = Ret tt
  /\ sleeps (events (main lib cfg (Contents dataTxt) (Contents proxyTxt) allCheckedIn quick 2 0))
     = [5000%Z; 5000%Z].
Proof.
  assert (Hall : forall k, k < 2 ->
            exists res,
              outcome (processAllAccounts lib cfg (Contents dataTxt) (Contents proxyTxt)
                         allCheckedIn quick
                         (roundStart lib cfg (Contents dataTxt) (Contents proxyTxt)
                            allCheckedIn quick k 0)) = Ret res).
  { intros k Hk. destruct k as [|[|k]];
      [eexists; vm_compute; reflexivity..|lia]. }
  destruct (proj1 (main_repeats_after_delay lib cfg (Contents dataTxt)
                     (Contents proxyTxt) allCheckedIn quick 2 0) Hall)
    as [Hout [_ Hev]].
  split; [exact Hout|]. rewrite Hev. reflexivity.
Defined.


(** Two failures with status 503 and then a response: the request is sent
    three times, with a wait of 2000 ms before the first retry and of
    4000 ms before the second. *)
Lemma backoff_is_exponential_witness :
  events (request lib cfg twoErrors503 quick clientA GET (lit "/status") 0)
  = [Call GET (lit "/status");
     Send tokenA None GET (lit "/status");
     RetryDelay 1 2000%Z;
     Send tokenA None GET (lit "/status");
     RetryDelay 2 4000%Z;
     Send tokenA None GET (lit "/status")].
Proof.
  destruct (backoff_is_exponential lib cfg twoErrors503 quick clientA GET
              (lit "/status") 0)
    as [[k [_ [Hsends [Hevents _]]]] _].
  vm_compute in Hsends. injection Hsends as Hk. subst k. exact Hevents.
Defined.

(** A listed status is not retried when the timeout is spent: each request
    takes the 30 s of [timeoutMs], and the first 503 is final though three
    retries are allowed. *)
Example status_503_dropped_when_timeout_spent :
  request lib cfg alwaysError503 slow clientA GET (lit "/status") 0
  = {| outcome := Throw (AxiosErr error503);
       pos := 1;
       events := [Call GET (lit "/status");
                  Send tokenA None GET (lit "/status")] |}.
Proof. reflexivity. Qed.

(** C1 does not hold as stated, in either direction: a response with
    status 501, which is no network error and none of the five statuses,
    passes the retry condition; and a response with status 503 is not
    sent again, with all three retries left, when the first request has
    taken the whole timeout. *)
Lemma retried_exactly_on_listed_fails :
  ~ retriedExactlyOnListed lib
  /\ ~ listedStatusIsRetried lib cfg alwaysError503 slow.
Proof.
  split; [exact status_501_is_retried|].
  intros H.
  assert (Hsent : 1 < sends (events (request lib cfg alwaysError503 slow clientA
                                       GET (lit "/status") 0))).
  { apply (H clientA GET (lit "/status") 0 error503 503%Z); try reflexivity.
    - cbn. tauto.
    - cbn. lia. }
  vm_compute in Hsent. lia.
Qed.

(** C6 fails on the code: [processAccount] builds its client before its
    [try].  With a line of [proxy.txt] that the constructor of the proxy
    agent refuses, [processAccount] throws, the batch throws with it and
    returns no tally, no request is sent for either token, and [main] ends
    the process with code 1. *)
Theorem client_failure_is_not_classified :
  processAccount libStrict cfg allCheckedIn quick tokenA
    (Proxy (lit "10.0.0.1:8080")) 1 0
  = {| outcome := Throw TypeError; pos := 0; events := [] |}
  /\ outcome (loadTokens (Contents dataTxt) 0) = Ret [tokenA; tokenB]
  /\ outcome (loadProxies cfg (Contents proxyNoScheme) 0) = Ret [lit "10.0.0.1:8080"]
  /\ processAllAccounts libStrict cfg (Contents dataTxt) (Contents proxyNoScheme)
       allCheckedIn quick 0
     = {| outcome := Throw TypeError; pos := 0; events := [] |}
  /\ mainOnce libStrict cfg (Contents dataTxt) (Contents proxyNoScheme)
       allCheckedIn quick 0
     = {| outcome := Exit 1%Z; pos := 0; events := [Header; ProcessExit 1%Z] |}.
Proof. repeat split; vm_compute; reflexivity. Qed.

(** ** More facts, on any configuration and files *)

(** X2: writing the loaded entries back one per line and loading that file
    gives the same entries: the loaders change nothing in a file that
    holds only clean entries. *)
Theorem reloading_gives_the_same_entries (c : config.t) data p entries :
  (outcome (loadTokens (Contents data) p) = Ret entries ->
   outcome (loadTokens (Contents (join LF entries)) p) = Ret entries)
  /\ (outcome (loadProxies c (Contents data) p) = Ret entries ->
      outcome (loadProxies c (Contents (join LF entries)) p) = Ret entries).
Proof.
  rewrite !loadTokens_eq, !loadProxies_eq. cbn [outcome]. split; intros H.
  - inversion H; subst entries. now rewrite spec_cleanLines_reload.
  - destruct (config.useProxy c); [|exact H].
    inversion H; subst entries. now rewrite spec_cleanLines_reload.
Qed.

Lemma slice_front w : slice w 0 (Some 6%Z) = firstn 6 w.
Proof.
  unfold slice, sliceIndex.
  change (0 <? 0)%Z with false. change (6 <? 0)%Z with false.
  change (Z.to_nat 0) with 0. change (Z.to_nat 6) with 6.
  cbv iota. rewrite Nat.min_0_l. cbn [skipn]. rewrite Nat.sub_0_r.
  destruct (Nat.le_ge_cases 6 (List.length w)) as [H|H].
  - now rewrite Nat.min_l.
  - rewrite Nat.min_r by exact H. now rewrite !firstn_all2 by lia.
Qed.

Lemma slice_back w : slice w (-6) None = skipn (List.length w - 6) w.
Proof.
  unfold slice, sliceIndex. cbn [Z.ltb Z.compare].
  replace (Z.to_nat (Z.max (Z.of_nat (List.length w) + -6) 0))
    with (List.length w - 6) by lia.
  apply firstn_all2. rewrite length_skipn. lia.
Qed.

(** X17: the wallet in the log line of [checkAccountStatus] is its first six
    and its last six characters around three dots.  Of a wallet of twelve
    characters or more the middle is hidden and the text is fifteen
    characters long; a wallet of six characters or fewer is written in
    full, twice. *)
Theorem wallet_shown_in_the_log w :
  walletShown w = firstn 6 w ++ lit "..." ++ skipn (List.length w - 6) w
  /\ List.length (walletShown w) <= 15
  /\ (12 <= List.length w ->
      List.length (walletShown w) = 15
      /\ exists middle,
           w = firstn 6 w ++ middle ++ skipn (List.length w - 6) w
           /\ List.length middle = List.length w - 12)
  /\ (List.length w <= 6 -> walletShown w = w ++ lit "..." ++ w).
Proof.
  assert (E : walletShown w = firstn 6 w ++ lit "..." ++ skipn (List.length w - 6) w).
  { unfold walletShown. now rewrite slice_front, slice_back. }
  assert (Hlen : List.length (walletShown w)
                 = Nat.min 6 (List.length w) + 3
                   + (List.length w - (List.length w - 6))).
  { rewrite E, !length_app, length_firstn, length_skipn. cbn. lia. }
  split; [exact E|]. split; [lia|]. split.
  - intros H. split; [lia|].
    exists (firstn (List.length w - 12) (skipn 6 w)). split.
    + rewrite <- (firstn_skipn 6 w) at 1. f_equal.
      rewrite <- (firstn_skipn (List.length w - 12) (skipn 6 w)) at 1. f_equal.
      rewrite skipn_skipn. f_equal. lia.
    + rewrite length_firstn, length_skipn. lia.
  - intros H. rewrite E, firstn_all2 by exact H.
    replace (List.length w - 6) with 0 by lia. reflexivity.
Qed.

(** ** Concrete runs for the facts above *)

(** The entries of the example file, written back and loaded again. *)
Lemma reloading_gives_the_same_entries_witness :
  outcome (loadTokens (Contents (join LF [tokenA; tokenB])) 0) = Ret [tokenA; tokenB].
Proof.
  apply (proj1 (reloading_gives_the_same_entries cfg dataTxt 0 [tokenA; tokenB])).
  reflexivity.
Defined.

(** A wallet of eighteen characters in the log. *)
Lemma wallet_shown_in_the_log_witness :
  walletShown (lit "cXabcdef0123456789") = lit "cXabcd...456789"
  /\ List.length (walletShown (lit "cXabcdef0123456789")) = 15.
Proof.
  destruct (wallet_shown_in_the_log (lit "cXabcdef0123456789"))
    as [Hshown [_ [Hlong _]]].
  split; [rewrite Hshown; reflexivity|].
  apply Hlong. cbn. lia.
Defined.

(** Without [proxy.txt] the batch of the example runs with no agent. *)
Lemma missing_proxy_file_is_ignored_witness :
  Forall (fun a => a = None)
    (agents (events (processAllAccounts lib cfg (Contents dataTxt) Missing
                       checkInWorks quick 0))).
Proof.
  apply (missing_proxy_file_is_ignored lib cfg (Contents dataTxt) Missing
           checkInWorks quick 0).
  left. reflexivity.
Defined.

(** Without [data.txt] three calls of [main] are one. *)
Lemma missing_token_file_ends_the_process_witness :
  events (main lib cfg Missing (Contents proxyTxt) allCheckedIn quick 3 0)
  = [Header; ProcessExit 1%Z].
Proof.
  rewrite (missing_token_file_ends_the_process lib cfg Missing (Contents proxyTxt)
             allCheckedIn quick 2 0 (or_introl eq_refl)).
  reflexivity.
Defined.

(** A [data.txt] of comments and blank lines. *)
Lemma no_token_no_work_witness :
  events (mainOnce lib cfg (Contents commentsOnly) (Contents proxyTxt) allCheckedIn quick 0)
  = [Header; Schedule 90000000%Z].
Proof.
  destruct (no_token_no_work lib cfg (Contents commentsOnly) (Contents proxyTxt)
              allCheckedIn quick 0 eq_refl) as [_ Hmain].
  rewrite Hmain. reflexivity.
Defined.

(** One proxy for two tokens: the client of the first account gets the
    agent of that proxy, the client of the second is built without one. *)
Lemma agent_is_the_loaded_proxy_witness :
  createAxiosInstance lib tokenA (proxyFor cfg [lit "http://10.0.0.1:8080"] 0) 0
  = {| outcome := Ret {| token := tokenA;
                         httpsAgent := Some (lit "http://10.0.0.1:8080") |};
       pos := 0; events := [Client tokenA (Some (lit "http://10.0.0.1:8080"))] |}
  /\ createAxiosInstance lib tokenB (proxyFor cfg [lit "http://10.0.0.1:8080"] 1) 3
     = {| outcome := Ret {| token := tokenB; httpsAgent := None |};
          pos := 3; events := [Client tokenB None] |}.
Proof.
  split.
  - exact (agent_is_the_loaded_proxy lib cfg (Contents dataTxt) (Contents proxyTxt) 0
             [lit "http://10.0.0.1:8080"] 0 tokenA 0 eq_refl).
  - exact (agent_is_the_loaded_proxy lib cfg (Contents dataTxt) (Contents proxyTxt) 0
             [lit "http://10.0.0.1:8080"] 1 tokenB 3 eq_refl).
Defined.

(** The batch of the example when the proxy agent cannot be built. *)
Lemma agent_failure_ends_the_process_witness :
  mainOnce libNoAgent cfg (Contents dataTxt) (Contents proxyTxt) allCheckedIn quick 0
  = {| outcome := Exit 1%Z; pos := 0; events := [Header; ProcessExit 1%Z] |}.
Proof.
  apply (agent_failure_ends_the_process libNoAgent cfg (Contents dataTxt)
           (Contents proxyTxt) allCheckedIn quick 0 tokenA [tokenB]
           (lit "http://10.0.0.1:8080") [] eq_refl eq_refl eq_refl).
Defined.

(** Two failures with status 503 and then a response: three sendings, so
    two retries, and 2000 + 4000 ms of waits, below the bound of 14000 ms. *)
Lemma total_wait_of_a_request_witness :
  waited (events (request lib cfg twoErrors503 quick clientA GET (lit "/status") 0))
  = 6000%Z.
Proof.
  destruct (total_wait_of_a_request lib cfg twoErrors503 quick clientA GET
              (lit "/status") 0)
    as [[k [_ [Hsends [_ Hwait]]]] _].
  - cbn. lia.
  - vm_compute in Hsends. injection Hsends as Hk. subst k. exact Hwait.
Defined.

(** The status endpoint answers with code 500 in its body. *)
Lemma bad_answer_fails_the_account_witness :
  outcome (processAccount lib cfg alwaysCode500 quick tokenA Null 1 0)
  = Ret {| success := false; alreadyCheckedIn := None;
           error := Some (InvalidResponseCode 500%Z) |}
  /\ pos (processAccount lib cfg alwaysCode500 quick tokenA Null 1 0) = 1.
Proof.
  rewrite (bad_answer_fails_the_account lib cfg alwaysCode500 quick tokenA Null 1 0
             clientA code500 eq_refl eq_refl (or_intror eq_refl)).
  split; reflexivity.
Defined.

(** The account that the bot checks in: success after the second status
    check, which is the last thing the run does. *)
Lemma success_means_checked_in_witness :
  exists axios q st,
    outcome (createAxiosInstance lib tokenA Null 0) = Ret axios
    /\ outcome (checkAccountStatus lib cfg checkInWorks quick axios 1 q) = Ret st
    /\ isCheckedIn st = true
    /\ pos (processAccount lib cfg checkInWorks quick tokenA Null 1 0)
       = pos (checkAccountStatus lib cfg checkInWorks quick axios 1 q).
Proof.
  apply (proj1 (success_means_checked_in lib cfg checkInWorks quick tokenA Null 1 0
                  {| success := true; alreadyCheckedIn := Some false; error := None |}
                  eq_refl)).
  reflexivity.
Defined.

(** The account that the bot checks in was reported as not done first. *)
Lemma checkin_only_when_due_witness :
  exists axios st,
    outcome (createAxiosInstance lib tokenA Null 0) = Ret axios
    /\ outcome (checkAccountStatus lib cfg checkInWorks quick axios 1 0) = Ret st
    /\ isCheckedIn st = false.
Proof.
  apply (checkin_only_when_due lib cfg checkInWorks quick tokenA Null 1 0 (lit "/checkin")).
  cbn. right. left. reflexivity.
Defined.

(** The tally of the batch of the example, counted from its two results. *)
Lemma tally_counts_the_results_witness :
  exists rs,
    tally = tallyOf 2 rs
    /\ results.successful tally = List.length (filter success rs).
Proof.
  assert (Hrun : outcome (processAllAccounts lib cfg (Contents dataTxt)
                            (Contents proxyTxt) checkInWorks quick 0) = Ret tally)
    by (vm_compute; reflexivity).
  destruct (tally_counts_the_results lib cfg (Contents dataTxt) (Contents proxyTxt)
              checkInWorks quick 0 tally Hrun)
    as [tokens [loaded [rs [Ht [_ [_ [Hres [Hs _]]]]]]]].
  assert (Htokens : tokens = [tokenA; tokenB])
    by (vm_compute in Ht; inversion Ht; reflexivity).
  exists rs. rewrite Htokens in Hres. split; [exact Hres|exact Hs].
Defined.
